(** * The content-classification core of the paste bot (main.py)

    A shallow embedding of the three decision procedures of [main.py]:
    the submission gate [check_rate_limit], the language detector
    [detect_language_from_content] and the eligibility classifier
    [should_create_paste], with the properties their specification
    states about them.

    Conventions of the embedding.
    - A Python [str] is a [string]; its characters are the code points
      0..255, and [len] is [String.length].  Texts with code points above
      255 are outside the model.
    - A Python [int] is a [Z].
    - The process-wide dict [user_rate_limit] is a [gmap Z time], passed
      in and returned explicitly; the clock read by [time.time()] is an
      argument.
    - The dict [language_patterns] and the dict [scores] are association
      lists, since both are iterated in insertion order.
    - A Python [float] is a binary64 primitive float.
    - A value parsed from JSON is a [json]; an exception that the program
      catches is [None] where it arises.
    - The requests to the paste store and the actions in the chat are
      the nodes of a tree of type [io]; the replies come from an [env].
    - [re.search] and [re.findall] are interpreted by a backtracking
      matcher over the parsed pattern. *)

From Stdlib Require Import ZArith Lia Bool List Ascii String.
From Stdlib Require Import Floats.PrimFloat.
From Stdlib Require Uint63.
From Stdlib Require DecimalString.
From stdpp Require Import base gmap strings.
Import ListNotations.

Local Open Scope Z_scope.

(* ===================================================================== *)
(** * Definitions                                                         *)
(* ===================================================================== *)

(** ** Submission gate *)

Section Gate.
(** [time] is the type of the values [time.time()] returns;
    [elapsed_exceeds now ts w] is the test [now - ts > w]. *)
Context {time : Type}.
Variable elapsed_exceeds : time -> time -> Z -> bool.
Variable RATE_LIMIT_WINDOW : Z.

(** The loop
    [for uid, timestamp in list(user_rate_limit.items()):
       if current_time - timestamp > RATE_LIMIT_WINDOW:
         del user_rate_limit[uid]]. *)
Definition purge_loop (current_time : time) (items : list (Z * time))
    (d : gmap Z time) : gmap Z time :=
  fold_left
    (fun acc (it : Z * time) =>
       if elapsed_exceeds current_time (snd it) RATE_LIMIT_WINDOW
       then delete (fst it) acc
       else acc)
    items d.

(** [check_rate_limit user_id], run at clock value [current_time] on the
    dict [user_rate_limit]; returns the result and the dict afterwards. *)
Definition check_rate_limit (current_time : time) (user_id : Z)
    (user_rate_limit : gmap Z time) : bool * gmap Z time :=
  let cleared : gmap Z time := ∅ in            (* user_rate_limit.clear() *)
  let purged := purge_loop current_time (map_to_list cleared) cleared in
  match purged !! user_id with
  | Some _ => (false, purged)                  (* return False *)
  | None => (true, <[user_id := current_time]> purged)
  end.

(** A sequence of calls [(current_time, user_id)], threaded through the
    dict; the results are collected in call order. *)
Fixpoint run_calls (calls : list (time * Z)) (d : gmap Z time)
    : list bool * gmap Z time :=
  match calls with
  | [] => ([], d)
  | (t, u) :: rest =>
      let '(r, d1) := check_rate_limit t u d in
      let '(rs, d2) := run_calls rest d1 in
      (r :: rs, d2)
  end.
End Gate.

(** The clock in whole seconds, for concrete runs. *)
Definition elapsed_exceeds_Z (now ts w : Z) : bool := w <? now - ts.

(** ** Characters and strings of Python *)

Definition code (c : ascii) : N := N_of_ascii c.

Definition in_range (lo hi : N) (c : ascii) : bool :=
  ((lo <=? code c) && (code c <=? hi))%N.

(** The upper-case letters among the code points 0..255: A-Z, and
    U+00C0..U+00DE without the multiplication sign U+00D7. *)
Definition is_upper (c : ascii) : bool :=
  in_range 65 90 c || in_range 192 214 c || in_range 216 222 c.

(** The lower-case letters whose upper-case form is again below 256. *)
Definition is_lower_paired (c : ascii) : bool :=
  in_range 97 122 c || in_range 224 246 c || in_range 248 254 c.

(** [str.lower] on one character. *)
Definition lower_char (c : ascii) : ascii :=
  if is_upper c then ascii_of_N (code c + 32) else c.

Definition upper_char (c : ascii) : ascii :=
  if is_lower_paired c then ascii_of_N (code c - 32) else c.

(** [str.isspace] on one character, which is also the class [\s]. *)
Definition is_space (c : ascii) : bool :=
  in_range 9 13 c || in_range 28 32 c
  || (code c =? 133)%N || (code c =? 160)%N.

(** The class [\w]: [str.isalnum] or the underscore. *)
Definition is_word (c : ascii) : bool :=
  in_range 48 57 c || in_range 65 90 c || in_range 97 122 c
  || (code c =? 95)%N
  || (code c =? 170)%N || (code c =? 178)%N || (code c =? 179)%N
  || (code c =? 181)%N || (code c =? 185)%N || (code c =? 186)%N
  || in_range 188 190 c
  || in_range 192 214 c || in_range 216 246 c || in_range 248 255 c.

Definition is_digit (c : ascii) : bool := in_range 48 57 c.

Definition is_ascii_alnum (c : ascii) : bool :=
  in_range 48 57 c || in_range 65 90 c || in_range 97 122 c.

(** [len(s)]. *)
Definition len (s : string) : Z := Z.of_nat (String.length s).

(** [s.lower()]. *)
Fixpoint lower (s : string) : string :=
  match s with
  | EmptyString => EmptyString
  | String c s' => String (lower_char c) (lower s')
  end.

(** [s.startswith(p)]. *)
Fixpoint startswith (s p : string) {struct p} : bool :=
  match p, s with
  | EmptyString, _ => true
  | String _ _, EmptyString => false
  | String a p', String b s' => Ascii.eqb a b && startswith s' p'
  end.

(** [sub in s]. *)
Fixpoint contains (sub s : string) : bool :=
  startswith s sub
  || match s with
     | EmptyString => false
     | String _ s' => contains sub s'
     end.

(** [s.split('\n')]: the pieces between the line feeds, never empty as
    a list. *)
Fixpoint split_lines (s : string) : list string :=
  match s with
  | EmptyString => [EmptyString]
  | String c s' =>
      if Ascii.eqb c "010"%char then EmptyString :: split_lines s'
      else match split_lines s' with
           | [] => [String c EmptyString]
           | l :: ls => String c l :: ls
           end
  end.

(** [s.lstrip()], [s.rstrip()], [s.strip()]. *)
Fixpoint lstrip (s : string) : string :=
  match s with
  | EmptyString => EmptyString
  | String c s' => if is_space c then lstrip s' else s
  end.

Fixpoint rstrip (s : string) : string :=
  match s with
  | EmptyString => EmptyString
  | String c s' =>
      match rstrip s' with
      | EmptyString => if is_space c then EmptyString else String c EmptyString
      | r => String c r
      end
  end.

Definition strip (s : string) : string := rstrip (lstrip s).

(** Truth value of a [str]: [not s] holds of the empty string only. *)
Definition str_not (s : string) : bool :=
  match s with EmptyString => true | String _ _ => false end.

(** ** Regular expressions: the part of [re] the program uses *)

Inductive cset_item : Type :=
| CChar (c : ascii)
| CRange (lo hi : ascii)
| CWord
| CSpace
| CDigit.

Inductive regex : Type :=
| REmpty
| RChar (c : ascii)
| RAny
| RSet (negated : bool) (items : list cset_item)
| RBol
| REol
| RWordB
| RSeq (r1 r2 : regex)
| RAlt (r1 r2 : regex)
| RStar (r : regex).

(** What a backslash followed by [e] denotes as a set member: a category,
    a control character, or the character itself when it is not an ASCII
    letter or digit. *)
Definition escape_item (e : ascii) : option cset_item :=
  if Ascii.eqb e "w" then Some CWord
  else if Ascii.eqb e "s" then Some CSpace
  else if Ascii.eqb e "d" then Some CDigit
  else if Ascii.eqb e "n" then Some (CChar "010")
  else if Ascii.eqb e "t" then Some (CChar "009")
  else if Ascii.eqb e "r" then Some (CChar "013")
  else if is_ascii_alnum e then None
  else Some (CChar e).

(** The members of a set [[...]], after the opening bracket and the
    optional [^]; stops after the closing bracket. *)
Fixpoint parse_set (fuel : nat) (s : string) (acc : list cset_item)
    : option (list cset_item * string) :=
  match fuel with
  | O => None
  | S f =>
      match s with
      | EmptyString => None
      | String c rest =>
          if Ascii.eqb c "]" then
            match acc with [] => None | _ => Some (rev acc, rest) end
          else if Ascii.eqb c "\" then
            match rest with
            | EmptyString => None
            | String e rest' =>
                match escape_item e with
                | None => None
                | Some it =>
                    match rest' with
                    | String d (String d' _) =>
                        if Ascii.eqb d "-" && negb (Ascii.eqb d' "]")
                        then None
                        else parse_set f rest' (it :: acc)
                    | _ => parse_set f rest' (it :: acc)
                    end
                end
            end
          else
            match rest with
            | String d (String hi rest') =>
                if Ascii.eqb d "-" && negb (Ascii.eqb hi "]") then
                  if Ascii.eqb hi "\" then None
                  else if (code c <=? code hi)%N
                       then parse_set f rest' (CRange c hi :: acc)
                       else None
                else parse_set f rest (CChar c :: acc)
            | _ => parse_set f rest (CChar c :: acc)
            end
      end
  end.

Definition is_quantifier (c : ascii) : bool :=
  Ascii.eqb c "*" || Ascii.eqb c "+" || Ascii.eqb c "?".

Definition is_assertion (r : regex) : bool :=
  match r with RBol | REol | RWordB => true | _ => false end.

(** One optional greedy quantifier after an atom.  [a+] is [aa*] and [a?]
    is [a|]; a second quantifier, a lazy or possessive mark, or a counted
    repetition is outside the supported syntax. *)
Definition parse_quantifier (a : regex) (s : string)
    : option (regex * string) :=
  match s with
  | String q rest =>
      if is_quantifier q then
        if is_assertion a then None
        else
          match rest with
          | String q' _ =>
              if is_quantifier q' || Ascii.eqb q' "{" then None
              else
                if Ascii.eqb q "*" then Some (RStar a, rest)
                else if Ascii.eqb q "+" then Some (RSeq a (RStar a), rest)
                else Some (RAlt a REmpty, rest)
          | EmptyString =>
              if Ascii.eqb q "*" then Some (RStar a, rest)
              else if Ascii.eqb q "+" then Some (RSeq a (RStar a), rest)
              else Some (RAlt a REmpty, rest)
          end
      else if Ascii.eqb q "{" then None
      else Some (a, s)
  | EmptyString => Some (a, s)
  end.

(** Recursive descent: alternatives, sequences, atoms. [parse_alt] and
    [parse_seq] stop in front of a closing parenthesis. *)
Fixpoint parse_alt (fuel : nat) (s : string) : option (regex * string) :=
  match fuel with
  | O => None
  | S f =>
      match parse_seq f s with
      | Some (r1, String c rest) =>
          if Ascii.eqb c "|" then
            match parse_alt f rest with
            | Some (r2, rest') => Some (RAlt r1 r2, rest')
            | None => None
            end
          else Some (r1, String c rest)
      | other => other
      end
  end
with parse_seq (fuel : nat) (s : string) : option (regex * string) :=
  match fuel with
  | O => None
  | S f =>
      match s with
      | EmptyString => Some (REmpty, s)
      | String c _ =>
          if Ascii.eqb c "|" || Ascii.eqb c ")" then Some (REmpty, s)
          else
            match parse_atom f s with
            | None => None
            | Some (a, rest) =>
                match parse_quantifier a rest with
                | None => None
                | Some (a', rest') =>
                    match parse_seq f rest' with
                    | Some (r, rest'') => Some (RSeq a' r, rest'')
                    | None => None
                    end
                end
            end
      end
  end
with parse_atom (fuel : nat) (s : string) : option (regex * string) :=
  match fuel with
  | O => None
  | S f =>
      match s with
      | EmptyString => None
      | String c rest =>
          if Ascii.eqb c "(" then
            match parse_alt f rest with
            | Some (r, String c' rest') =>
                if Ascii.eqb c' ")" then Some (r, rest') else None
            | _ => None
            end
          else if Ascii.eqb c "[" then
            match rest with
            | String n rest' =>
                if Ascii.eqb n "^" then
                  match parse_set f rest' [] with
                  | Some (items, rest'') => Some (RSet true items, rest'')
                  | None => None
                  end
                else
                  match parse_set f rest [] with
                  | Some (items, rest'') => Some (RSet false items, rest'')
                  | None => None
                  end
            | EmptyString => None
            end
          else if Ascii.eqb c "\" then
            match rest with
            | EmptyString => None
            | String e rest' =>
                if Ascii.eqb e "b" then Some (RWordB, rest')
                else
                  match escape_item e with
                  | Some (CChar x) => Some (RChar x, rest')
                  | Some it => Some (RSet false [it], rest')
                  | None => None
                  end
            end
          else if Ascii.eqb c "." then Some (RAny, rest)
          else if Ascii.eqb c "^" then Some (RBol, rest)
          else if Ascii.eqb c "$" then Some (REol, rest)
          else if is_quantifier c then None
          else Some (RChar c, rest)
      end
  end.

(** [re.compile(pattern)]: [None] stands for a pattern that is invalid or
    outside the supported syntax. *)
Definition re_compile (pattern : string) : option regex :=
  match parse_alt (3 * String.length pattern + 3) pattern with
  | Some (r, EmptyString) => Some r
  | _ => None
  end.

(** *** Matching, always under [re.IGNORECASE] *)

(** A position in the text: the character just before it, if any, and the
    text from it on. *)
Definition cursor : Type := option ascii * string.

Definition char_eq_ci (x c : ascii) : bool :=
  Ascii.eqb (lower_char x) (lower_char c).

Definition range_has (lo hi c : ascii) : bool :=
  in_range (code lo) (code hi) c.

Definition item_match (c : ascii) (it : cset_item) : bool :=
  match it with
  | CChar x => char_eq_ci x c
  | CRange lo hi =>
      range_has lo hi c || range_has lo hi (lower_char c)
      || range_has lo hi (upper_char c)
  | CWord => is_word c
  | CSpace => is_space c
  | CDigit => is_digit c
  end.

Definition set_match (negated : bool) (items : list cset_item) (c : ascii)
    : bool :=
  xorb negated (existsb (item_match c) items).

Definition word_before (cur : cursor) : bool :=
  match fst cur with Some c => is_word c | None => false end.

Definition word_after (cur : cursor) : bool :=
  match snd cur with String c _ => is_word c | EmptyString => false end.

(** [\b]: exactly one side of the position is a word character. *)
Definition at_boundary (cur : cursor) : bool :=
  xorb (word_before cur) (word_after cur).

(** [$] without [re.MULTILINE]: the end of the text, or just before a
    line feed that ends it. *)
Definition at_end (cur : cursor) : bool :=
  match snd cur with
  | EmptyString => true
  | String c EmptyString => Ascii.eqb c "010"
  | _ => false
  end.

(** One character consumed by [ok]. *)
Definition step_char (ok : ascii -> bool) (k : cursor -> option cursor)
    (cur : cursor) : option cursor :=
  match snd cur with
  | String c s' => if ok c then k (Some c, s') else None
  | EmptyString => None
  end.

Definition advanced (from to : cursor) : bool :=
  (String.length (snd to) <? String.length (snd from))%nat.

(** The backtracking matcher in continuation-passing style:
    [rmatch r k cur] is the end of the first match of [r] at [cur], in the
    order of preference of [re], that the continuation [k] accepts. *)
Fixpoint rmatch (r : regex) (k : cursor -> option cursor) (cur : cursor)
    : option cursor :=
  match r with
  | REmpty => k cur
  | RChar x => step_char (char_eq_ci x) k cur
  | RAny => step_char (fun c => negb (Ascii.eqb c "010")) k cur
  | RSet negated items => step_char (set_match negated items) k cur
  | RBol => match fst cur with None => k cur | Some _ => None end
  | REol => if at_end cur then k cur else None
  | RWordB => if at_boundary cur then k cur else None
  | RSeq r1 r2 => rmatch r1 (rmatch r2 k) cur
  | RAlt r1 r2 =>
      match rmatch r1 k cur with
      | Some e => Some e
      | None => rmatch r2 k cur
      end
  | RStar r1 =>
      (fix loop (n : nat) (cur : cursor) {struct n} : option cursor :=
         match n with
         | O => k cur
         | S n' =>
             match rmatch r1
                     (fun cur' => if advanced cur cur' then loop n' cur'
                                  else None) cur with
             | Some e => Some e
             | None => k cur
             end
         end) (String.length (snd cur)) cur
  end.

(** The first match that starts exactly at [cur]. *)
Definition match_at (r : regex) (cur : cursor) : option cursor :=
  rmatch r Some cur.

(** A match starting at [cur] or further right. *)
Fixpoint search_from (r : regex) (prev : option ascii) (s : string) : bool :=
  match match_at r (prev, s) with
  | Some _ => true
  | None =>
      match s with
      | EmptyString => false
      | String c s' => search_from r (Some c) s'
      end
  end.

(** [len(re.findall(...))]: the matches found from left to right, each
    search resuming where the last match ended ([skip] characters of the
    last match are still to be passed).  An empty match is counted and the
    scan moves on by one character. *)
Fixpoint findall_from (r : regex) (prev : option ascii) (s : string)
    (skip : nat) : Z :=
  match skip with
  | S skip' =>
      match s with
      | EmptyString => 0
      | String c s' => findall_from r (Some c) s' skip'
      end
  | O =>
      match match_at r (prev, s) with
      | Some e =>
          1 + match s with
              | EmptyString => 0
              | String c s' =>
                  findall_from r (Some c) s'
                    (String.length s - String.length (snd e) - 1)
              end
      | None =>
          match s with
          | EmptyString => 0
          | String c s' => findall_from r (Some c) s' 0
          end
      end
  end.

(** The pattern is accepted by [re_compile]. *)
Definition compiles (pattern : string) : bool :=
  match re_compile pattern with Some _ => true | None => false end.

(** [bool(re.search(pattern, text, re.IGNORECASE))]. Every pattern of the
    program compiles, see [program_patterns_compile]. *)
Definition re_search (pattern text : string) : bool :=
  match re_compile pattern with
  | Some r => search_from r None text
  | None => false
  end.

(** [len(re.findall(pattern, text, re.IGNORECASE))]. *)
Definition re_findall_count (pattern text : string) : Z :=
  match re_compile pattern with
  | Some r => findall_from r None text 0
  | None => 0
  end.

(** The characters [re.escape] puts a backslash in front of. *)
Definition is_special (c : ascii) : bool :=
  contains (String c EmptyString) "()[]{}?*+-|^$\.&~# "
  || in_range 9 13 c.

(** [re.escape(s)]. *)
Fixpoint re_escape (s : string) : string :=
  match s with
  | EmptyString => EmptyString
  | String c s' =>
      if is_special c then String "\" (String c (re_escape s'))
      else String c (re_escape s')
  end.

(** ** Language detector *)

(** One entry of [language_patterns]. Every entry of the program has the
    key ['weight'], so [config.get('weight', 1)] is that field. *)
Record config : Type := Config {
  patterns : list string;
  keywords : list string;
  weight : Z
}.

(** The double quote, as a one-character string. *)
Definition dq : string := String "034" EmptyString.

(** The dict [language_patterns], in insertion order. *)
Definition language_patterns : list (string * config) :=
  [ ("html",
     Config ["<!DOCTYPE html>"; "<html[^>]*>"; "<head[^>]*>"; "<body[^>]*>";
             "</html>"; "\.html$"]
            ["<!DOCTYPE"; "<html"; "<head"; "<body"; "<div"; "<span"; "<p";
             "<a"; "<script"; "<style"]
            20);
    ("css",
     Config ["\.\w+\s*\{"; "@media\s*\("; "@import\s+url"; "\.css$"]
            ["{"; "}"; ":"; ";"; "@media"; "@import"; "background"; "color";
             "font"; "margin"; "padding"; "display"; "position"]
            15);
    ("javascript",
     Config ["function\s+\w+\s*\("; "const\s+\w+\s*="; "let\s+\w+\s*=";
             "var\s+\w+\s*="; "console\.log"; "\.js$"]
            ["function"; "const"; "let"; "var"; "console.log"; "=>"; "async";
             "await"; "export"; "import"; "return"; "if"; "else"]
            15);
    ("python",
     Config ["^#!/.*python"; "import\s+\w+"; "from\s+\w+\s+import";
             "def\s+\w+\s*\("; "class\s+\w+"; "\.py$"]
            ["def"; "class"; "import"; "from"; "if __name__"; "print";
             "return"; "self"; "True"; "False"; "None"; "try"; "except"]
            15);
    ("php",
     Config ["<\?php"; "\$\w+\s*="; "echo\s+"; "function\s+\w+"; "\.php$"]
            ["<?php"; "echo"; "$"; "function"; "class"; "namespace"; "use";
             "return"; "if"; "else"]
            12);
    ("sql",
     Config ["SELECT\s+.*FROM"; "INSERT\s+INTO"; "UPDATE\s+\w+\s+SET";
             "DELETE\s+FROM"; "CREATE\s+TABLE"; "\.sql$"]
            ["SELECT"; "INSERT"; "UPDATE"; "DELETE"; "CREATE"; "FROM";
             "WHERE"; "JOIN"; "GROUP BY"; "ORDER BY"]
            12);
    ("java",
     Config ["public\s+class\s+\w+"; "import\s+java\."; "System\.out\.print";
             "public\s+static\s+void\s+main"; "\.java$"]
            ["public"; "class"; "import"; "System.out"; "static"; "void";
             "String"; "int"; "private"; "protected"]
            12);
    ("cpp",
     Config ["#include\s*<[^>]+>"; "using\s+namespace\s+std"; "std::";
             "int\s+main\s*\("; "\.cpp$"]
            ["#include"; "using namespace"; "std::"; "cout"; "cin";
             "int main"; "vector"; "string"; "class"]
            10);
    ("bash",
     Config ["#!/bin/bash"; "#!/bin/sh"; "echo\s+[" +:+ dq +:+ "\']";
             "if\s+\[.*\];\s+then"; "for\s+\w+\s+in"; "\.sh$"]
            ["#!/bin"; "echo"; "if ["; "for"; "while"; "do"; "done"; "then";
             "fi"; "exit"]
            10);
    ("json",
     Config ["^\s*\{.*\}$"; "^\s*\[.*\]$"; dq +:+ "[\w-]+" +:+ dq +:+ "\s*:";
             "\.json$"]
            ["{"; "}"; "["; "]"; ":"; dq; "true"; "false"; "null"]
            8);
    ("xml",
     Config ["<\?xml[^>]*\?>"; "<[^>]+>.*</[^>]+>"; "<[^>]+/>"; "\.xml$"]
            ["<?xml"; "<"; ">"; "</"; "version="; "encoding="]
            8);
    ("yaml",
     Config ["^\s*\w+:\s*[^#\n]*$"; "^\s*-\s+\w+"; "^\s*#.*$"; "\.yml$";
             "\.yaml$"]
            [":"; "-"; "version:"; "name:"; "description:"; "#"]
            8);
    ("markdown",
     Config ["^#\s+\w+"; "^\*\s+\w+"; "^-\s+\w+"; "\*\*[^*]+\*\*";
             "__[^_]+__"; "\.md$"]
            ["#"; "*"; "-"; "##"; "###"; "**"; "__"; "```"]
            6);
    ("c",
     Config ["#include\s*<[^>]+>"; "int\s+main\s*\("; "printf\s*\(";
             "scanf\s*\("; "\.c$"]
            ["#include"; "int main"; "printf"; "scanf"; "malloc"; "free";
             "struct"; "return"]
            5) ]%string.

(** The keys of [language_patterns], in insertion order. *)
Definition catalog_names : list string := map fst language_patterns.

(** The shebang test on [first_line], the lower-cased first line; [None]
    when no branch returns. *)
Definition shebang (first_line : string) : option string :=
  if startswith first_line "#!" then
    if contains "python" first_line then Some "python"%string
    else if contains "bash" first_line || contains "sh" first_line
         then Some "bash"%string
    else if contains "node" first_line then Some "javascript"%string
    else None
  else None.

(** The pattern [rf'\b{escaped_keyword}\b']. *)
Definition keyword_pattern (keyword : string) : string :=
  "\b" +:+ re_escape keyword +:+ "\b".

(** The loop over [config['patterns']]. *)
Definition score_patterns (weight : Z) (content : string)
    (pats : list string) (score : Z) : Z :=
  fold_left
    (fun score pattern =>
       if re_search pattern content then score + 10 * weight else score)
    pats score.

(** The loop over [config['keywords']]. *)
Definition score_keywords (weight : Z) (content : string)
    (kws : list string) (score : Z) : Z :=
  fold_left
    (fun score keyword =>
       let matches := re_findall_count (keyword_pattern keyword) content in
       score + matches * weight)
    kws score.

(** The value of [score] at the end of one iteration of the outer loop. *)
Definition language_score (cfg : config) (content : string) : Z :=
  score_keywords (weight cfg) content (keywords cfg)
    (score_patterns (weight cfg) content (patterns cfg) 0).

(** [d[k] = v] on a dict kept in insertion order. *)
Fixpoint dict_set (d : list (string * Z)) (k : string) (v : Z)
    : list (string * Z) :=
  match d with
  | [] => [(k, v)]
  | (k', v') :: d' =>
      if String.eqb k' k then (k', v) :: d' else (k', v') :: dict_set d' k v
  end.

(** [d.get(k)]. *)
Fixpoint dict_get (d : list (string * Z)) (k : string) : option Z :=
  match d with
  | [] => None
  | (k', v') :: d' => if String.eqb k' k then Some v' else dict_get d' k
  end.

(** The outer loop [for lang, config in language_patterns.items()],
    started with the dict [scores]. *)
Definition score_languages (catalog : list (string * config))
    (content : string) (scores : list (string * Z)) : list (string * Z) :=
  fold_left
    (fun scores (entry : string * config) =>
       let score := language_score (snd entry) content in
       if 0 <? score then dict_set scores (fst entry) score else scores)
    catalog scores.

(** [a > b] on the values [scores.get] returns. *)
Definition value_gt (a b : option Z) : bool :=
  match a, b with
  | Some x, Some y => y <? x
  | _, _ => false
  end.

(** [max(items, key=key)]: the first item is kept until a later one has a
    strictly greater key. [None] on no items. *)
Definition py_max (items : list string) (key : string -> option Z)
    : option string :=
  match items with
  | [] => None
  | x :: rest =>
      Some (fold_left
              (fun best it => if value_gt (key it) (key best) then it else best)
              rest x)
  end.

(** [lines[0].lower() if lines else ""]. *)
Definition first_line_of (content : string) : string :=
  match split_lines content with
  | l :: _ => lower l
  | [] => EmptyString
  end.

(** The scoring part of the detector, after the shebang test, over the
    dict [catalog]. *)
Definition detect_by_score (catalog : list (string * config))
    (content : string) : option string :=
  let scores := score_languages catalog content [] in
  match scores with
  | [] => None
  | _ :: _ => py_max (map fst scores) (dict_get scores)
  end.

(** The body of [detect_language_from_content], with the dict the
    function builds as an argument. ([content_lower] is assigned there
    and never read.) *)
Definition detect_language (catalog : list (string * config))
    (content : string) : option string :=
  if str_not content || str_not (strip content) then None
  else
    match shebang (first_line_of content) with
    | Some tag => Some tag
    | None => detect_by_score catalog content
    end.

Definition detect_language_from_content (content : string)
    : option string :=
  detect_language language_patterns content.

(** ** Eligibility classifier *)

(** Python's [float] is binary64, as are the primitive floats.
    [float(n)] for an [int], exact below 2^53. *)
Definition float_of_int (n : Z) : float :=
  PrimFloat.of_uint63 (Uint63.of_Z n).

(** [a / b] on two [int]s, which are below 2^53 wherever the program
    divides. *)
Definition py_truediv (a b : Z) : float :=
  PrimFloat.div (float_of_int a) (float_of_int b).

(** The literal [0.3]: the binary64 value nearest to 3/10. *)
Definition float_0_3 : float := 0x1.3333333333333p-2%float.

(** The test [code_line_count / len(lines) > 0.3] as the program
    evaluates it. *)
Definition ratio_exceeds (code_line_count lines : Z) : bool :=
  PrimFloat.ltb float_0_3 (py_truediv code_line_count lines).

Definition code_indicators : list string :=
  [ "```";
    "^\s*[a-zA-Z_][a-zA-Z0-9_]*\s*[=:]\s*";
    "^\s*(def|function|class|import|from|if|for|while|try|catch)\s+";
    "^\s*[{}()\[\]]";
    "^\s*[#/]\s*";
    "^\s*[a-zA-Z_][a-zA-Z0-9_]*\s*\(" ]%string.

(** The inner loop [for pattern in code_indicators] with its [break]:
    whether the line adds one to [code_line_count]. *)
Fixpoint line_is_code (indicators : list string) (line : string) : bool :=
  match indicators with
  | [] => false
  | pattern :: rest =>
      if re_search pattern line then true else line_is_code rest line
  end.

(** The loop [for line in lines]. *)
Definition count_code_lines (lines : list string) : Z :=
  fold_left
    (fun code_line_count line =>
       if line_is_code code_indicators line then code_line_count + 1
       else code_line_count)
    lines 0.

Section Classifier.
Variable MIN_MESSAGE_LENGTH : Z.

Definition should_create_paste (text : string) : bool :=
  if len text <? MIN_MESSAGE_LENGTH then false
  else
    let lines := split_lines text in
    let code_line_count := count_code_lines lines in
    if (1000 <? len text)
       || ratio_exceeds code_line_count (Z.of_nat (List.length lines))
    then true
    else
      match detect_language_from_content text with
      | Some detected_lang => negb (str_not detected_lang)
      | None => false
      end.
End Classifier.

(** ** Values parsed from JSON *)

(** What [response.json()] returns. The fields of an object are in the
    order of the dict, each key once. *)
#[local] Unset Elimination Schemes.
Inductive json : Type :=
| JNull
| JBool (b : bool)
| JInt (n : Z)
| JFloat (f : float)
| JStr (s : string)
| JList (items : list json)
| JObj (fields : list (string * json)).
#[local] Set Elimination Schemes.

(** Truth value of a Python value, as [if v:] tests it. *)
Definition truthy (v : json) : bool :=
  match v with
  | JNull => false
  | JBool b => b
  | JInt n => negb (n =? 0)
  | JFloat f => negb (PrimFloat.eqb f 0%float)
  | JStr s => negb (str_not s)
  | JList items => match items with [] => false | _ :: _ => true end
  | JObj fields => match fields with [] => false | _ :: _ => true end
  end.

(** The value stored under [key] in a dict. *)
Fixpoint obj_get (fields : list (string * json)) (key : string)
    : option json :=
  match fields with
  | [] => None
  | (k, v) :: rest => if String.eqb k key then Some v else obj_get rest key
  end.

(** [v.get(key, default)]: [None] stands for the [AttributeError] of a
    value that is no dict. *)
Definition py_get (v : json) (key : string) (default : json) : option json :=
  match v with
  | JObj fields =>
      Some (match obj_get fields key with Some x => x | None => default end)
  | _ => None
  end.

(** [v[key]] for a string key: [None] stands for [KeyError] or
    [TypeError]. *)
Definition py_item (v : json) (key : string) : option json :=
  match v with
  | JObj fields => obj_get fields key
  | _ => None
  end.

(** [v[0]]: [None] stands for [IndexError], [KeyError] or [TypeError]. *)
Definition py_first (v : json) : option json :=
  match v with
  | JList (x :: _) => Some x
  | JStr (String c _) => Some (JStr (String c EmptyString))
  | _ => None
  end.

(** [v.lower()]: [None] stands for the [AttributeError] of a value that
    is no [str]. *)
Definition py_lower (v : json) : option string :=
  match v with
  | JStr s => Some (lower s)
  | _ => None
  end.

(** The items a [for] loop over [v] visits: [None] stands for the
    [TypeError] of a value that cannot be iterated. *)
Definition py_iter (v : json) : option (list json) :=
  match v with
  | JList items => Some items
  | JStr s =>
      Some (map (fun c => JStr (String c EmptyString)) (list_ascii_of_string s))
  | JObj fields => Some (map (fun kv => JStr (fst kv)) fields)
  | _ => None
  end.

(** ** HTTP and chat actions *)

(** A response of [requests]: its status and what [.json()] gives, [None]
    when the body is no JSON. *)
Record response : Type := Response {
  status_code : Z;
  json_body : option json
}.

(** [response.raise_for_status()] raises. *)
Definition raises_for_status (r : response) : bool :=
  (400 <=? status_code r) && (status_code r <? 600).

(** The dict [data] that is posted. *)
Record paste_data : Type := PasteData {
  data_content : string;
  data_expiration : Z;
  data_one_time : bool;
  data_language : option json
}.

(** The keyword arguments of [send_message]. *)
Record outgoing : Type := Outgoing {
  out_chat_id : Z;
  out_text : string;
  out_parse_mode : option string;
  out_disable_web_page_preview : option bool;
  out_reply_to_message_id : option Z
}.

(** A computation that talks to the paste store and to the chat: each
    action hands the reply to the rest of the computation. For the two
    requests the reply is the response, or [None] when the call raised;
    for the two chat actions it is whether the call raised. Calls of the
    logger are left out: they return nothing the program reads. *)
Inductive io (A : Type) : Type :=
| Ret (a : A)
| GetLanguages (headers : list (string * string))
    (k : option response -> io A)
| PostPaste (headers : list (string * string)) (data : paste_data)
    (k : option response -> io A)
| DeleteMessage (chat_id message_id : Z) (k : bool -> io A)
| SendMessage (msg : outgoing) (k : bool -> io A).

Arguments Ret {A} a.
Arguments GetLanguages {A} headers k.
Arguments PostPaste {A} headers data k.
Arguments DeleteMessage {A} chat_id message_id k.
Arguments SendMessage {A} msg k.

Fixpoint bind {A B : Type} (m : io A) (f : A -> io B) : io B :=
  match m with
  | Ret a => f a
  | GetLanguages h k => GetLanguages h (fun r => bind (k r) f)
  | PostPaste h d k => PostPaste h d (fun r => bind (k r) f)
  | DeleteMessage c i k => DeleteMessage c i (fun r => bind (k r) f)
  | SendMessage msg k => SendMessage msg (fun r => bind (k r) f)
  end.

(** What the outside world answers: to the [n]-th request for the
    languages, to a post, to a delete and to the [n]-th message sent. *)
Record env : Type := Env {
  get_reply : nat -> option response;
  post_reply : paste_data -> option response;
  delete_raises : bool;
  send_raises : nat -> bool
}.

Inductive event : Type :=
| EvGet (headers : list (string * string))
| EvPost (headers : list (string * string)) (data : paste_data)
| EvDelete (chat_id message_id : Z)
| EvSend (msg : outgoing).

(** Runs a computation in [e], after [gets] requests for the languages
    and [sends] messages: its result and the actions it took, in order. *)
Fixpoint run_io {A : Type} (e : env) (p : io A) (gets sends : nat)
    : A * list event :=
  match p with
  | Ret a => (a, [])
  | GetLanguages h k =>
      let '(a, t) := run_io e (k (get_reply e gets)) (S gets) sends in
      (a, EvGet h :: t)
  | PostPaste h d k =>
      let '(a, t) := run_io e (k (post_reply e d)) gets sends in
      (a, EvPost h d :: t)
  | DeleteMessage c i k =>
      let '(a, t) := run_io e (k (delete_raises e)) gets sends in
      (a, EvDelete c i :: t)
  | SendMessage msg k =>
      let '(a, t) := run_io e (k (send_raises e sends)) gets (S sends) in
      (a, EvSend msg :: t)
  end.

(** ** Paste store *)

Section Store.
Variable BOT_TOKEN : option string.
Variable WEBSITE_URL : string.
Variable PASTE_EXPIRATION_DAYS : Z.
(** [str(v)] for a float, a list or a dict. *)
Variable repr_other : json -> string.

(** [headers], with the token when [BOT_TOKEN] is set and not empty. *)
Definition bot_headers : list (string * string) :=
  match BOT_TOKEN with
  | Some token =>
      if str_not token then [] else [("X-Bot-Token"%string, token)]
  | None => []
  end.

(** [raise_for_status()] and [json()] on the reply of a request: [None]
    when the request or one of the two raised. *)
Definition checked_json (reply : option response) : option json :=
  match reply with
  | None => None
  | Some r => if raises_for_status r then None else json_body r
  end.

(** The loop of [get_language_id_by_alias]; an exception in it ends in
    [return None]. *)
Fixpoint find_alias (languages : list json) (alias : string) : json :=
  match languages with
  | [] => JNull
  | lang :: rest =>
      match py_get lang "alias" (JStr EmptyString) with
      | None => JNull
      | Some a =>
          match py_lower a with
          | None => JNull
          | Some a_lower =>
              if String.eqb a_lower (lower alias) then
                match py_get lang "id" JNull with
                | Some id => id
                | None => JNull
                end
              else find_alias rest alias
          end
      end
  end.

(** What [get_language_id_by_alias] makes of the reply. *)
Definition id_by_alias (reply : option response) (alias : string) : json :=
  match checked_json reply with
  | None => JNull
  | Some languages =>
      match py_iter languages with
      | None => JNull
      | Some items => find_alias items alias
      end
  end.

Definition get_language_id_by_alias (alias : string) : io json :=
  GetLanguages bot_headers (fun reply => Ret (id_by_alias reply alias)).

Definition set_language (data : paste_data) (id : json) : paste_data :=
  PasteData (data_content data) (data_expiration data) (data_one_time data)
    (Some id).

(** What the fallback makes of the reply: [data['language'] =
    languages[0]['id']] if nothing raises, else [data] as it was. *)
Definition with_first_language (data : paste_data)
    (reply : option response) : paste_data :=
  match checked_json reply with
  | None => data
  | Some languages =>
      if truthy languages then
        match py_first languages with
        | None => data
        | Some first =>
            match py_item first "id" with
            | None => data
            | Some id => set_language data id
            end
        end
      else data
  end.

(** The fallback to the first available language. *)
Definition first_language (data : paste_data) : io paste_data :=
  GetLanguages bot_headers (fun reply => Ret (with_first_language data reply)).

(** [str(v)], as the f-string formats the paste id. *)
Definition py_str (v : json) : string :=
  match v with
  | JNull => "None"
  | JBool b => if b then "True" else "False"
  | JInt n => DecimalString.NilZero.string_of_int (Z.to_int n)
  | JStr s => s
  | _ => repr_other v
  end.

(** What [create_paste] returns for the reply to its post. *)
Definition paste_url (reply : option response) : option string :=
  match checked_json reply with
  | None => None
  | Some paste =>
      match py_get paste "id" JNull with
      | None => None
      | Some paste_id =>
          if truthy paste_id
          then Some (WEBSITE_URL +:+ "/" +:+ py_str paste_id)
          else None
      end
  end.

Definition create_paste (content : string) (language_alias : option string)
    : io (option string) :=
  let data := PasteData content PASTE_EXPIRATION_DAYS false None in
  bind
    (match language_alias with
     | Some alias =>
         if str_not alias then first_language data
         else
           bind (get_language_id_by_alias alias)
             (fun lang_id =>
                if truthy lang_id then Ret (set_language data lang_id)
                else first_language data)
     | None => first_language data
     end)
    (fun data =>
       PostPaste bot_headers data (fun reply => Ret (paste_url reply))).
End Store.

(** ** The message handler *)

(** The parts of [update.message] the handler reads; [mention_html] is
    what the method of that name returns. *)
Record user : Type := User {
  user_id : Z;
  is_bot : bool;
  mention_html : string
}.

Record message : Type := Message {
  message_id : Z;
  message_text : option string;
  from_user : option user;
  chat_id : Z;
  chat_type : string
}.

Record update : Type := Update {
  update_message : option message
}.

(** How a call of the handler ends: it returns, or an exception leaves
    it. *)
Inductive finished : Type :=
| Returned
| Raised.

Section Handler.
Context {time : Type}.
Variable elapsed_exceeds : time -> time -> Z -> bool.
Variable RATE_LIMIT_WINDOW : Z.
Variable MIN_MESSAGE_LENGTH : Z.
Variable BOT_TOKEN : option string.
Variable WEBSITE_URL : string.
Variable PASTE_EXPIRATION_DAYS : Z.
Variable repr_other : json -> string.
(** The characters above 255 that open the second line of the notice,
    and those that open the two apologies. *)
Variable mark_notice : string.
Variable mark_sorry : string.

(** [lang_info]. *)
Definition lang_info (detected_lang : option string) : string :=
  match detected_lang with
  | Some lang => if str_not lang then EmptyString else " (" +:+ lang +:+ ")"
  | None => EmptyString
  end.

(** [message_text], the notice with the link. *)
Definition notice_text (user_mention : string) (detected_lang : option string)
    (url : string) : string :=
  user_mention +:+ " sent a long message" +:+ lang_info detected_lang +:+ "."
  +:+ String "010" (mark_notice +:+ " View it here: " +:+ url).

Definition notice (m : message) (u : user) (detected_lang : option string)
    (url : string) : outgoing :=
  Outgoing (chat_id m) (notice_text (mention_html u) detected_lang url)
    (Some "HTML"%string) (Some true) None.

(** The apology when no paste was created. *)
Definition sorry_no_paste (m : message) : outgoing :=
  Outgoing (chat_id m)
    (mark_sorry +:+ " Sorry, I couldn't create a paste for your message. Please try again later.")
    None None (Some (message_id m)).

(** The apology of the [except] clause. *)
Definition sorry_error (m : message) : outgoing :=
  Outgoing (chat_id m)
    (mark_sorry +:+ " Sorry, an error occurred while processing your message. Please try again later.")
    None None (Some (message_id m)).

(** A [send_message] inside the [try]: when it raises, the [except]
    clause sends the second apology, and a failure of that one is only
    logged. *)
Definition send_in_try {A : Type} (m : message) (msg : outgoing) (a : A)
    : io A :=
  SendMessage msg
    (fun raised =>
       if raised then SendMessage (sorry_error m) (fun _ => Ret a)
       else Ret a).

(** A group message from a person, with a text the classifier accepts. *)
Definition eligible (m : message) (u : user) (text : string) : Prop :=
  message_text m = Some text
  /\ str_not text = false
  /\ from_user m = Some u
  /\ is_bot u = false
  /\ String.eqb (chat_type m) "private" = false
  /\ should_create_paste MIN_MESSAGE_LENGTH text = true.

(** The actions of a [send_message] inside the [try], the [sends]-th of
    the run. *)
Definition sent (e : env) (m : message) (msg : outgoing) (sends : nat)
    : list event :=
  EvSend msg :: (if send_raises e sends then [EvSend (sorry_error m)] else []).

(** [handle_message], called at clock value [current_time] with the dict
    [user_rate_limit]: how it ends, and the dict afterwards. *)
Definition handle_message (current_time : time) (upd : update)
    (user_rate_limit : gmap Z time) : io (finished * gmap Z time) :=
  match update_message upd with
  | None => Ret (Returned, user_rate_limit)
  | Some m =>
      match message_text m with
      | None => Ret (Returned, user_rate_limit)
      | Some text =>
          if str_not text then Ret (Returned, user_rate_limit)
          else
            match from_user m with
            | None => Ret (Raised, user_rate_limit)
            | Some u =>
                if is_bot u then Ret (Returned, user_rate_limit)
                else if String.eqb (chat_type m) "private"
                then Ret (Returned, user_rate_limit)
                else if should_create_paste MIN_MESSAGE_LENGTH text then
                  let '(allowed, limits) :=
                    check_rate_limit elapsed_exceeds RATE_LIMIT_WINDOW
                      current_time (user_id u) user_rate_limit in
                  if negb allowed then Ret (Returned, limits)
                  else
                    let detected_lang := detect_language_from_content text in
                    bind
                      (create_paste BOT_TOKEN WEBSITE_URL PASTE_EXPIRATION_DAYS
                         repr_other text detected_lang)
                      (fun paste_url =>
                         match paste_url with
                         | Some url =>
                             if str_not url
                             then send_in_try m (sorry_no_paste m)
                                    (Returned, limits)
                             else
                               DeleteMessage (chat_id m) (message_id m)
                                 (fun _ =>
                                    send_in_try m
                                      (notice m u detected_lang url)
                                      (Returned, limits))
                         | None =>
                             send_in_try m (sorry_no_paste m)
                               (Returned, limits)
                         end)
                else Ret (Returned, user_rate_limit)
            end
      end
  end.
End Handler.

(** ** Notions used to state the properties *)

(** *** Occurrences of a keyword *)

(** [p] is found at the start of [s], letter case ignored. *)
Fixpoint startswith_ci (s p : string) {struct p} : bool :=
  match p, s with
  | EmptyString, _ => true
  | String _ _, EmptyString => false
  | String a p', String b s' => char_eq_ci a b && startswith_ci s' p'
  end.

(** The position [n] characters further right (or the end of the text). *)
Fixpoint advance (n : nat) (cur : cursor) : cursor :=
  match n with
  | O => cur
  | S n' =>
      match snd cur with
      | String c s' => advance n' (Some c, s')
      | EmptyString => cur
      end
  end.

(** A match of [\b k \b] at [cur], as [re.findall] finds it: the text
    reads [k] there, letter case ignored, and both ends of the match are
    regex word boundaries, with a word character on exactly one side. *)
Definition boundary_match_at (k : string) (cur : cursor) : bool :=
  at_boundary cur && startswith_ci (snd cur) k
  && at_boundary (advance (String.length k) cur).

(** The number of positions of the text at which [\b k \b] matches. *)
Fixpoint count_boundary_matches (k : string) (prev : option ascii)
    (s : string) : Z :=
  (if boundary_match_at k (prev, s) then 1 else 0)
  + match s with
    | EmptyString => 0
    | String c s' => count_boundary_matches k (Some c) s'
    end.

Definition boundary_match_count (k content : string) : Z :=
  count_boundary_matches k None content.

(** *** Whole-token occurrences of a keyword, in the specification's words *)







(** The characters of [k] one after the other, then [tail]. *)
Fixpoint literal (k : string) (tail : regex) : regex :=
  match k with
  | EmptyString => tail
  | String c k' => RSeq (RChar c) (literal k' tail)
  end.

(** What [keyword_pattern k] compiles to. *)
Definition word_regex (k : string) : regex :=
  RSeq RWordB (literal k (RSeq RWordB REmpty)).

(** No match of [\b k \b] can start inside another one: wherever the
    keyword has a word boundary inside, the character after it differs
    from the keyword's first character. *)
Fixpoint overlap_free_from (first before : ascii) (rest : string) : bool :=
  match rest with
  | EmptyString => true
  | String c rest' =>
      negb (xorb (is_word before) (is_word c) && char_eq_ci first c)
      && overlap_free_from first c rest'
  end.

(** The test on a whole keyword; the empty keyword fails it. *)
Definition overlap_free (k : string) : bool :=
  match k with
  | EmptyString => false
  | String c k' => overlap_free_from c c k'
  end.

(** The keywords of all profiles, and the patterns of all profiles. *)
Definition all_keywords : list string :=
  flat_map (fun entry => keywords (snd entry)) language_patterns.

Definition all_patterns : list string :=
  flat_map (fun entry => patterns (snd entry)) language_patterns.

(** *** Scores and candidates *)

(** The sum of [f] over a list. *)
Fixpoint sum_over {A : Type} (f : A -> Z) (l : list A) : Z :=
  match l with
  | [] => 0
  | x :: l' => f x + sum_over f l'
  end.

(** What one profile contributes to the dict [scores]. *)
Definition scored (content : string) (entry : string * config)
    : string * Z :=
  (fst entry, language_score (snd entry) content).

(** The test [score > 0]. *)
Definition positive (e : string * Z) : bool := 0 <? snd e.

(** The candidate set: the profiles with a positive score, in catalog
    order. *)
Definition candidates (catalog : list (string * config)) (content : string)
    : list (string * Z) :=
  List.filter positive (map (scored content) catalog).

(** [tag], with score [v], is the first maximum of [d]: everything before
    it scores strictly less, nothing after it scores more. *)
Definition first_maximum (d : list (string * Z)) (tag : string) (v : Z)
    : Prop :=
  exists before after,
    d = (before ++ (tag, v) :: after)%list
    /\ (forall e, In e before -> snd e < v)
    /\ (forall e, In e after -> snd e <= v).

(** In catalog order, [tag] is the first profile with the greatest score,
    and that score [v] is positive. *)
Definition first_maximum_of_catalog (catalog : list (string * config))
    (content tag : string) (v : Z) : Prop :=
  exists before cfg after,
    catalog = (before ++ (tag, cfg) :: after)%list
    /\ v = language_score cfg content /\ 0 < v
    /\ (forall e, In e before -> language_score (snd e) content < v)
    /\ (forall e, In e after -> language_score (snd e) content <= v).

(** *** Blank text *)

(** Every character is white space. *)
Fixpoint all_space (s : string) : bool :=
  match s with
  | EmptyString => true
  | String c s' => is_space c && all_space s'
  end.

(** A position in a text made of white space only. *)
Definition blank_cursor (cur : cursor) : Prop :=
  match fst cur with Some c => is_space c = true | None => True end
  /\ all_space (snd cur) = true.

(** The 256 characters. *)
Definition all_chars : list ascii := map ascii_of_nat (seq 0 256).

(** No white-space character satisfies [ok]. *)
Definition rejects_space (ok : ascii -> bool) : bool :=
  forallb (fun c => negb (ok c && is_space c)) all_chars.

(** A sufficient test for a regex to match nowhere in blank text. *)
Fixpoint never_blank (r : regex) : bool :=
  match r with
  | RChar x => rejects_space (char_eq_ci x)
  | RSet negated items => rejects_space (set_match negated items)
  | RWordB => true
  | RSeq r1 r2 => never_blank r1 || never_blank r2
  | RAlt r1 r2 => never_blank r1 && never_blank r2
  | REmpty | RAny | RBol | REol | RStar _ => false
  end.

(** A pattern that compiles to a regex that matches nowhere in blank
    text. *)
Definition fails_on_blank (pattern : string) : bool :=
  match re_compile pattern with
  | Some r => never_blank r
  | None => true
  end.

(** *** The ratio of code lines *)

(** The test agrees with the comparison of the exact ratio with 3/10 for
    the counts [c], [c + 1], ... ([fuel] of them) over [n] lines. *)
Fixpoint ratio_agrees_from (fuel : nat) (c n : Z) : bool :=
  match fuel with
  | O => true
  | S f =>
      Bool.eqb (ratio_exceeds c n) (3 * n <? 10 * c)
      && ratio_agrees_from f (c + 1) n
  end.

(** The same for every count up to [n], for [n], [n + 1], ... lines. *)
Fixpoint ratio_agrees_upto (fuel : nat) (n : Z) : bool :=
  match fuel with
  | O => true
  | S f =>
      ratio_agrees_from (Z.to_nat n + 1) 0 n && ratio_agrees_upto f (n + 1)
  end.

(** A line that at least one code indicator matches. *)
Definition code_like (line : string) : bool :=
  existsb (fun pattern => re_search pattern line) code_indicators.

(** The number of such lines, each line counted once. *)
Definition code_line_total (lines : list string) : Z :=
  Z.of_nat (List.length (List.filter code_like lines)).

(** *** Sample texts *)

(** [n] copies of [c]. *)
Fixpoint replicate_char (n : nat) (c : ascii) : string :=
  match n with
  | O => EmptyString
  | S n' => String c (replicate_char n' c)
  end.

(** A script for Python whose body is HTML. *)
Definition python_script_with_html_body : string :=
  "#!/usr/bin/env python" +:+ String "010" "<html><body></body></html>".

(** Three lines of Python. *)
Definition python_snippet : string :=
  "def foo():" +:+ String "010" "    return 1" +:+ String "010" "import os".

(** A word that is a keyword of JavaScript and of Python, both of weight
    15, and of PHP and C. *)
Definition tie_text : string := "return".

(** A sentence of 50 characters. *)
Definition short_sentence : string :=
  "The quick brown fox jumps over the lazy dog again.".

(** The three lines of Python followed by a line of 266 hash signs: 300
    characters in all. *)
Definition padded_snippet : string :=
  python_snippet +:+ String "010" (replicate_char 266 "#").

(** 1200 letters with no code marker. *)
Definition long_plain_text : string := replicate_char 1200 "a".

(** One line of 204 characters that reads as an assignment. *)
Definition assignment_line : string := "x = " +:+ replicate_char 200 "1".

(** 207 characters on one line, no code marker, the keyword [return]. *)
Definition prose_with_keyword : string := replicate_char 200 "x" +:+ " return".

(** 200 characters on one line, no code marker, no keyword. *)
Definition plain_word : string := replicate_char 200 "x".

(** *** Letter case, word characters *)

(** No character of the text is a word character. *)
Fixpoint no_word (s : string) : bool :=
  match s with
  | EmptyString => true
  | String c s' => negb (is_word c) && no_word s'
  end.

(** The position [cur] in the lower-cased text. *)
Definition lower_cursor (cur : cursor) : cursor :=
  (option_map lower_char (fst cur), lower (snd cur)).

(** The continuations [k] on the text and [k'] on the lower-cased text
    agree. *)
Definition same_on_lower (k k' : cursor -> option cursor) : Prop :=
  forall cur, k' (lower_cursor cur) = option_map lower_cursor (k cur).

(** *** Actions of a run *)

(** The number of actions of one kind in a list of actions. *)
Fixpoint count_gets (t : list event) : nat :=
  match t with
  | [] => 0
  | EvGet _ :: t' => S (count_gets t')
  | _ :: t' => count_gets t'
  end.

(** The number of actions of one kind in a list of actions. *)
Fixpoint count_sends (t : list event) : nat :=
  match t with
  | [] => 0
  | EvSend _ :: t' => S (count_sends t')
  | _ :: t' => count_sends t'
  end.

(** Entries of the list that are dicts with a string alias other than
    [alias], letter case ignored. *)
Definition other_aliases (alias : string) (entries : list json) : Prop :=
  Forall (fun entry =>
            exists fields a,
              entry = JObj fields
              /\ obj_get fields "alias" = Some (JStr a)
              /\ lower a <> lower alias) entries.

(** The number of actions of one kind in a list of actions. *)
Fixpoint count_posts (t : list event) : nat :=
  match t with
  | [] => 0
  | EvPost _ _ :: t' => S (count_posts t')
  | _ :: t' => count_posts t'
  end.

(** The number of actions of one kind in a list of actions. *)
Fixpoint count_deletes (t : list event) : nat :=
  match t with
  | [] => 0
  | EvDelete _ _ :: t' => S (count_deletes t')
  | _ :: t' => count_deletes t'
  end.

(** *** More sample texts *)

(** An interpreter line the shebang test does not know, and a body. *)
Definition perl_script : string :=
  "#!/usr/bin/perl" +:+ String "010" "print" +:+ String "010" "return".

(** Spaces, a tab and line feeds. *)
Definition blank_text : string :=
  "   " +:+ String "009" (String "010" (String "010" "  ")).

(** Brackets and punctuation of a JSON document, no word character. *)
Definition json_brackets : string := "{ [ ] : ; }".

(** *** Sample replies and updates *)

(** An entry of the list of languages. *)
Definition language_entry (id : json) (alias : string) : json :=
  JObj [("id"%string, id); ("alias"%string, JStr alias)].

(** A list of languages in which [Python] comes before [python]. *)
Definition sample_languages : json :=
  JList [language_entry (JInt 3) "Text"; language_entry (JInt 7) "Python";
         language_entry (JInt 9) "python"].


(** A list whose first entry is a string. *)
Definition languages_with_string : json :=
  JList [JStr "oops"; language_entry (JInt 7) "python"].

Definition ok_reply (body : json) : option response :=
  Some (Response 200 (Some body)).

(** The store answers every request; deleting raises, sending does not. *)
Definition sample_env : env :=
  Env (fun _ => ok_reply sample_languages)
      (fun _ => Some (Response 201 (Some (JObj [("id"%string, JStr "abc123")]))))
      true (fun _ => false).


Definition string_env : env :=
  Env (fun _ => ok_reply languages_with_string) (fun _ => None) false
      (fun _ => false).

(** Every request raises, and so does the first message sent. *)
Definition broken_env : env :=
  Env (fun _ => None) (fun _ => None) false (fun n => Nat.eqb n 0).

Definition sample_user : user := User 42 false "Ann".

Definition group_message (text : string) : message :=
  Message 1001 (Some text) (Some sample_user) (-100) "supergroup".

Definition private_message (text : string) : message :=
  Message 1002 (Some text) (Some sample_user) 42 "private".

(** The handler with the default configuration and a clock in seconds. *)
Definition sample_handle (now : Z) (upd : update) (d : gmap Z Z)
    : io (finished * gmap Z Z) :=
  handle_message elapsed_exceeds_Z 60 200 (Some "secret"%string)
    "http://localhost:8000" 7 (fun _ => EmptyString)
    EmptyString EmptyString now upd d.

(* ===================================================================== *)
(** * Theorems                                                            *)
(* ===================================================================== *)

Section GateFacts.
Context {time : Type}.
Variable elapsed_exceeds : time -> time -> Z -> bool.
Variable RATE_LIMIT_WINDOW : Z.

Lemma purge_loop_nil (now : time) (d : gmap Z time) :
  purge_loop elapsed_exceeds RATE_LIMIT_WINDOW now [] d = d.
Proof. reflexivity. Qed.

Lemma check_rate_limit_eq (now : time) (uid : Z) (d : gmap Z time) :
  check_rate_limit elapsed_exceeds RATE_LIMIT_WINDOW now uid d
  = (true, {[uid := now]}).
Proof.
  unfold check_rate_limit.
  rewrite map_to_list_empty, purge_loop_nil, lookup_empty.
  reflexivity.
Qed.

(** C2. Every call of [check_rate_limit] returns [True], whatever the
    actor and whatever the dict the earlier calls left behind: the dict
    is emptied first, so the purge loop runs over no items and the
    lookup that guards the deny branch finds nothing; afterwards the
    dict holds exactly one entry, the caller mapped to the current
    time. *)
Theorem check_rate_limit_always_allows :
  forall (now : time) (uid : Z) (d : gmap Z time),
    let cleared : gmap Z time := ∅ in
    map_to_list cleared = []
    /\ purge_loop elapsed_exceeds RATE_LIMIT_WINDOW now
         (map_to_list cleared) cleared !! uid = None
    /\ fst (check_rate_limit elapsed_exceeds RATE_LIMIT_WINDOW now uid d)
       = true
    /\ snd (check_rate_limit elapsed_exceeds RATE_LIMIT_WINDOW now uid d)
       = {[uid := now]}
    /\ map_to_list
         (snd (check_rate_limit elapsed_exceeds RATE_LIMIT_WINDOW now uid d))
       = [(uid, now)]
    /\ forall calls,
         Forall (fun r => r = true)
           (fst (run_calls elapsed_exceeds RATE_LIMIT_WINDOW calls d)).
Proof.
  intros now uid d cleared.
  rewrite check_rate_limit_eq. subst cleared.
  rewrite map_to_list_empty. simpl.
  repeat split; try reflexivity.
  - apply map_to_list_singleton.
  - intros calls. revert d.
    induction calls as [|[t u] rest IH]; intros d; simpl.
    + constructor.
    + rewrite check_rate_limit_eq.
      specialize (IH {[u := t]}).
      destruct (run_calls elapsed_exceeds RATE_LIMIT_WINDOW rest {[u := t]})
        as [rs d2].
      simpl in *. constructor; [reflexivity | exact IH].
Qed.
End GateFacts.

(** C1 (the code departs from it). Actor 42 calls at second 100 and again
    at second 101, with a window of 60 seconds. The first call returns
    [True], as specified. The second call is inside the window, yet it
    returns [True] and the recorded timestamp moves from 100 to 101, where
    the specification has [False] and an unchanged timestamp. A third
    call at second 200, after the window, returns [True], as specified. *)
Theorem check_rate_limit_second_call_allowed :
  let d1 := snd (check_rate_limit elapsed_exceeds_Z 60 100 42 ∅) in
  let d2 := snd (check_rate_limit elapsed_exceeds_Z 60 101 42 d1) in
  fst (check_rate_limit elapsed_exceeds_Z 60 100 42 ∅) = true
  /\ d1 !! 42 = Some 100
  /\ elapsed_exceeds_Z 101 100 60 = false
  /\ fst (check_rate_limit elapsed_exceeds_Z 60 101 42 d1) = true
  /\ d2 !! 42 = Some 101
  /\ elapsed_exceeds_Z 200 101 60 = true
  /\ fst (check_rate_limit elapsed_exceeds_Z 60 200 42 d2) = true.
Proof.
  cbv zeta. rewrite !check_rate_limit_eq. cbn [fst snd].
  rewrite !lookup_singleton_eq. repeat split; reflexivity.
Qed.

(** ** Characters and strings *)

Ltac each_char c := destruct c as [[] [] [] [] [] [] [] []].

Lemma eqb_hash_lower (c : ascii) :
  Ascii.eqb "#" (lower_char c) = Ascii.eqb "#" c.
Proof. each_char c; reflexivity. Qed.

Lemma eqb_bang_lower (c : ascii) :
  Ascii.eqb "!" (lower_char c) = Ascii.eqb "!" c.
Proof. each_char c; reflexivity. Qed.

Lemma startswith_lower_shebang (l : string) :
  startswith (lower l) "#!" = startswith l "#!".
Proof.
  destruct l as [|a [|b l]]; cbn [startswith lower]; try reflexivity.
  - rewrite eqb_hash_lower. reflexivity.
  - rewrite eqb_hash_lower, eqb_bang_lower. reflexivity.
Qed.

Lemma startswith_lower (p l : string) :
  startswith l p = true -> startswith (lower l) (lower p) = true.
Proof.
  revert l. induction p as [|a p IH]; intros l H; [reflexivity|].
  destruct l as [|b l]; simpl in *; [discriminate|].
  apply andb_true_iff in H as [Hab Hl].
  apply Ascii.eqb_eq in Hab. subst b.
  rewrite Ascii.eqb_refl. simpl. apply IH, Hl.
Qed.

Lemma contains_lower (sub l : string) :
  contains sub l = true -> contains (lower sub) (lower l) = true.
Proof.
  induction l as [|b l IH]; simpl; intros H.
  - rewrite orb_false_r in *. apply (startswith_lower sub EmptyString), H.
  - apply orb_true_iff in H as [H|H].
    + apply (startswith_lower sub (String b l)) in H. simpl in H.
      rewrite H. reflexivity.
    + rewrite (IH H). apply orb_true_r.
Qed.

Lemma split_lines_cons (s : string) :
  exists l ls, split_lines s = l :: ls.
Proof.
  destruct s as [|c s]; simpl; [eauto|].
  destruct (Ascii.eqb c "010"); [eauto|].
  destruct (split_lines s); eauto.
Qed.

Lemma split_lines_length_pos (s : string) :
  (1 <= List.length (split_lines s))%nat.
Proof.
  destruct (split_lines_cons s) as (l & ls & ->). simpl. lia.
Qed.

(** [split] yields at most one line more than there are characters. *)
Lemma split_lines_length_le (s : string) :
  (List.length (split_lines s) <= String.length s + 1)%nat.
Proof.
  induction s as [|c s IH]; simpl; [lia|].
  destruct (Ascii.eqb c "010"); simpl; [lia|].
  destruct (split_lines s); simpl in *; lia.
Qed.

Lemma rstrip_nonspace (c : ascii) (s : string) :
  is_space c = false -> str_not (rstrip (String c s)) = false.
Proof.
  intros Hc. simpl. destruct (rstrip s); [rewrite Hc|]; reflexivity.
Qed.

(** A text whose first line starts with [#!] passes the blank test. *)
Lemma shebang_not_blank (content : string) :
  startswith (first_line_of content) "#!" = true ->
  str_not content || str_not (strip content) = false.
Proof.
  unfold first_line_of. intros H.
  destruct content as [|c content]; [discriminate H|].
  cbn [split_lines] in H. cbn [str_not orb].
  destruct (Ascii.eqb c "010") eqn:Hnl; [discriminate H|].
  assert (Hc : c = "#"%char).
  { destruct (split_lines content); cbn [lower startswith] in H;
      apply andb_true_iff in H as [H _];
      rewrite eqb_hash_lower in H; apply Ascii.eqb_eq in H; congruence. }
  subst c. unfold strip. cbn [lstrip]. change (is_space "#") with false.
  cbv iota. apply rstrip_nonspace. reflexivity.
Qed.

(** ** The catalog *)

Lemma catalog_names_eq :
  catalog_names
  = [ "html"; "css"; "javascript"; "python"; "php"; "sql"; "java"; "cpp";
      "bash"; "json"; "xml"; "yaml"; "markdown"; "c" ]%string.
Proof. reflexivity. Qed.

Lemma catalog_names_not_empty (tag : string) :
  In tag catalog_names -> str_not tag = false.
Proof.
  rewrite catalog_names_eq. simpl.
  intros H; repeat (destruct H as [<-|H]; [reflexivity|]); contradiction.
Qed.

Lemma shebang_in_catalog (line tag : string) :
  shebang line = Some tag -> In tag catalog_names.
Proof.
  unfold shebang. rewrite catalog_names_eq.
  destruct (startswith line "#!"); [|discriminate].
  destruct (contains "python" line).
  { intros [= <-]. simpl. tauto. }
  destruct (contains "bash" line || contains "sh" line).
  { intros [= <-]. simpl. tauto. }
  destruct (contains "node" line); [|discriminate].
  intros [= <-]. simpl. tauto.
Qed.

(** ** Dicts in insertion order *)

Lemma dict_set_keys (d : list (string * Z)) (k : string) (v : Z) (k' : string) :
  In k' (map fst (dict_set d k v)) -> k' = k \/ In k' (map fst d).
Proof.
  induction d as [|[k0 v0] d IH]; simpl.
  - intros [<-|[]]. now left.
  - destruct (String.eqb k0 k); simpl; intros [H|H]; auto.
    destruct (IH H); auto.
Qed.

Lemma score_languages_keys (catalog : list (string * config))
    (content : string) (scores : list (string * Z)) (k : string) :
  In k (map fst (score_languages catalog content scores)) ->
  In k (map fst catalog) \/ In k (map fst scores).
Proof.
  unfold score_languages. revert scores.
  induction catalog as [|[lang cfg] catalog IH]; intros scores; simpl.
  - auto.
  - intros H. apply IH in H as [H|H]; [auto|].
    destruct (0 <? language_score cfg content); [|auto].
    apply dict_set_keys in H as [->|H]; auto.
Qed.

Lemma py_max_in (items : list string) (key : string -> option Z) (tag : string) :
  py_max items key = Some tag -> In tag items.
Proof.
  destruct items as [|x rest]; simpl; [discriminate|].
  intros [= <-].
  assert (G : forall l b, In b (x :: rest) -> (forall y, In y l -> In y (x :: rest)) ->
    In (fold_left (fun best it => if value_gt (key it) (key best) then it else best) l b)
       (x :: rest)).
  { induction l as [|y l IH]; intros b Hb Hl; simpl; [exact Hb|].
    apply IH.
    - destruct (value_gt (key y) (key b)); [apply Hl; now left | exact Hb].
    - intros z Hz. apply Hl. now right. }
  apply G; [now left | intros y Hy; now right].
Qed.

Lemma detect_by_score_in (catalog : list (string * config))
    (content tag : string) :
  detect_by_score catalog content = Some tag -> In tag (map fst catalog).
Proof.
  unfold detect_by_score.
  destruct (score_languages catalog content []) as [|e scores] eqn:E;
    [discriminate|].
  intros H. apply py_max_in in H. rewrite <- E in H.
  apply score_languages_keys in H as [H|[]]. exact H.
Qed.

Lemma detect_in_catalog (content tag : string) :
  detect_language_from_content content = Some tag -> In tag catalog_names.
Proof.
  unfold detect_language_from_content, detect_language.
  destruct (str_not content || str_not (strip content)); [discriminate|].
  destruct (shebang (first_line_of content)) as [t|] eqn:E.
  - intros [= <-]. eapply shebang_in_catalog, E.
  - apply detect_by_score_in.
Qed.

(** ** The language detector *)

(** C10. The detector returns [None] or one of the fourteen names of the
    catalog; the three tags of the shebang test are catalog names; and
    every key of the dict [scores] is a catalog name. *)
Theorem detect_tag_in_catalog :
  forall content : string,
    catalog_names
    = [ "html"; "css"; "javascript"; "python"; "php"; "sql"; "java"; "cpp";
        "bash"; "json"; "xml"; "yaml"; "markdown"; "c" ]%string
    /\ (detect_language_from_content content = None
        \/ exists tag, detect_language_from_content content = Some tag
                       /\ In tag catalog_names)
    /\ (forall line tag, shebang line = Some tag -> In tag catalog_names)
    /\ (forall k v,
          In (k, v) (score_languages language_patterns content []) ->
          In k catalog_names).
Proof.
  intros content. split; [reflexivity|]. split; [|split].
  - destruct (detect_language_from_content content) as [tag|] eqn:E.
    + right. exists tag. split; [reflexivity|].
      apply (detect_in_catalog content), E.
    + now left.
  - apply shebang_in_catalog.
  - intros k v H.
    apply (in_map fst) in H. cbn [fst] in H.
    apply score_languages_keys in H as [H|[]]. exact H.
Qed.

Lemma first_line_of_hd (content : string) :
  first_line_of content = lower (hd EmptyString (split_lines content)).
Proof.
  unfold first_line_of.
  destruct (split_lines_cons content) as (l & ls & ->). reflexivity.
Qed.

Lemma detect_language_shebang (catalog : list (string * config))
    (content tag : string) :
  startswith (hd EmptyString (split_lines content)) "#!" = true ->
  shebang (first_line_of content) = Some tag ->
  detect_language catalog content = Some tag.
Proof.
  intros Hs Htag. unfold detect_language.
  rewrite shebang_not_blank, Htag; [reflexivity|].
  rewrite first_line_of_hd, startswith_lower_shebang. exact Hs.
Qed.

(** C6, as worded, fails: the program tests the lower-cased first line,
    so letter case is ignored. The line [#!/bin/sh PYTHON] contains [sh]
    and does not contain [python], and the detector returns [python]
    where the claim says [bash]; the line [#!/usr/bin/node SH] contains
    [node] and neither [python] nor [bash] nor [sh], and the detector
    returns [bash] where the claim says [javascript]. *)
Lemma shebang_test_ignores_case :
  (startswith "#!/bin/sh PYTHON" "#!" = true
   /\ contains "python" "#!/bin/sh PYTHON" = false
   /\ contains "sh" "#!/bin/sh PYTHON" = true
   /\ hd EmptyString (split_lines "#!/bin/sh PYTHON")
      = "#!/bin/sh PYTHON"%string
   /\ detect_language_from_content "#!/bin/sh PYTHON" = Some "python"%string)
  /\ (startswith "#!/usr/bin/node SH" "#!" = true
      /\ contains "python" "#!/usr/bin/node SH" = false
      /\ contains "bash" "#!/usr/bin/node SH" = false
      /\ contains "sh" "#!/usr/bin/node SH" = false
      /\ contains "node" "#!/usr/bin/node SH" = true
      /\ hd EmptyString (split_lines "#!/usr/bin/node SH")
         = "#!/usr/bin/node SH"%string
      /\ detect_language_from_content "#!/usr/bin/node SH"
         = Some "bash"%string).
Proof.
  split; repeat (split; [vm_compute; reflexivity|]); vm_compute; reflexivity.
Qed.

(** C6 (amended). When the first line starts with [#!]: if the line,
    lower-cased, contains [python] the detector returns [python];
    otherwise if it contains [bash] or [sh] it returns [bash]; otherwise
    if it contains [node] it returns [javascript]. A line that contains
    [python] as written is included. The result is the same for every
    catalog, so the scoring has no part in it; and there is a text whose
    body the catalog scores as [html] that is still detected as
    [python]. *)
Theorem shebang_shortcut :
  forall (catalog : list (string * config)) (content : string),
    let line := hd EmptyString (split_lines content) in
    startswith line "#!" = true ->
    (contains "python" (lower line) = true ->
     detect_language catalog content = Some "python"%string)
    /\ (contains "python" line = true ->
        detect_language catalog content = Some "python"%string)
    /\ (contains "python" (lower line) = false ->
        contains "bash" (lower line) = true
        \/ contains "sh" (lower line) = true ->
        detect_language catalog content = Some "bash"%string)
    /\ (contains "python" (lower line) = false ->
        contains "bash" (lower line) = false ->
        contains "sh" (lower line) = false ->
        contains "node" (lower line) = true ->
        detect_language catalog content = Some "javascript"%string)
    /\ (detect_by_score language_patterns python_script_with_html_body
        = Some "html"%string
        /\ detect_language_from_content python_script_with_html_body
           = Some "python"%string).
Proof.
  intros catalog content line Hs.
  assert (Hl : startswith (lower line) "#!" = true)
    by (rewrite startswith_lower_shebang; exact Hs).
  assert (Hpy : contains "python" (lower line) = true ->
                detect_language catalog content = Some "python"%string).
  { intros H. apply detect_language_shebang; [exact Hs|].
    rewrite first_line_of_hd. fold line. unfold shebang.
    rewrite Hl, H. reflexivity. }
  split; [exact Hpy|]. split; [|split; [|split]].
  - intros H. apply Hpy. apply (contains_lower "python" line), H.
  - intros Hp Hb. apply detect_language_shebang; [exact Hs|].
    rewrite first_line_of_hd. fold line. unfold shebang.
    rewrite Hl, Hp.
    destruct Hb as [-> | ->]; [reflexivity | rewrite orb_true_r; reflexivity].
  - intros Hp Hb Hsh Hn. apply detect_language_shebang; [exact Hs|].
    rewrite first_line_of_hd. fold line. unfold shebang.
    rewrite Hl, Hp, Hb, Hsh, Hn. reflexivity.
  - split; vm_compute; reflexivity.
Qed.

Lemma shebang_shortcut_witness :
  startswith (hd EmptyString (split_lines python_script_with_html_body)) "#!"
  = true
  /\ detect_language language_patterns python_script_with_html_body
     = Some "python"%string.
Proof.
  split; [reflexivity|].
  apply (shebang_shortcut language_patterns python_script_with_html_body);
    reflexivity.
Defined.

(** ** The eligibility classifier *)

(** C3. A text shorter than [MIN_MESSAGE_LENGTH] is never turned into a
    paste, whatever it contains and whatever the threshold is set to. *)
Theorem short_text_not_pasted :
  forall (MIN_MESSAGE_LENGTH : Z) (text : string),
    len text < MIN_MESSAGE_LENGTH ->
    should_create_paste MIN_MESSAGE_LENGTH text = false.
Proof.
  intros m text H. unfold should_create_paste.
  apply Z.ltb_lt in H. rewrite H. reflexivity.
Qed.

Lemma short_text_not_pasted_witness :
  len "def f(): return 1" < 200
  /\ should_create_paste 200 "def f(): return 1" = false.
Proof.
  split; [reflexivity|].
  apply (short_text_not_pasted 200 "def f(): return 1"). reflexivity.
Defined.

(** ** Occurrences of a keyword *)

Lemma rmatch_literal (k : string) (cur : cursor) :
  rmatch (literal k (RSeq RWordB REmpty)) Some cur
  = if startswith_ci (snd cur) k
       && at_boundary (advance (String.length k) cur)
    then Some (advance (String.length k) cur) else None.
Proof.
  revert cur. induction k as [|a k IH]; intros [p s].
  - cbn. destruct (at_boundary (p, s)); reflexivity.
  - cbn [literal rmatch]. unfold step_char. cbn [snd].
    destruct s as [|c s]; [reflexivity|].
    cbn [startswith_ci String.length advance snd].
    destruct (char_eq_ci a c); [|reflexivity].
    rewrite IH. reflexivity.
Qed.

Lemma match_at_word_regex (k : string) (cur : cursor) :
  match_at (word_regex k) cur
  = if boundary_match_at k cur
    then Some (advance (String.length k) cur) else None.
Proof.
  unfold match_at, word_regex, boundary_match_at. cbn [rmatch].
  destruct (at_boundary cur); [|reflexivity].
  rewrite rmatch_literal. reflexivity.
Qed.

Lemma is_word_lower (c : ascii) : is_word (lower_char c) = is_word c.
Proof. each_char c; reflexivity. Qed.

Lemma char_eq_ci_word (a b : ascii) :
  char_eq_ci a b = true -> is_word a = is_word b.
Proof.
  unfold char_eq_ci. intros H. apply Ascii.eqb_eq in H.
  rewrite <- (is_word_lower a), <- (is_word_lower b), H. reflexivity.
Qed.

Lemma char_eq_ci_trans (a b c : ascii) :
  char_eq_ci a b = true -> char_eq_ci c b = true -> char_eq_ci a c = true.
Proof.
  unfold char_eq_ci. intros H1 H2.
  apply Ascii.eqb_eq in H1, H2. apply Ascii.eqb_eq. congruence.
Qed.

Lemma length_advance (k s : string) (p : option ascii) :
  startswith_ci s k = true ->
  String.length (snd (advance (String.length k) (p, s)))
  = (String.length s - String.length k)%nat.
Proof.
  revert p s. induction k as [|a k IH]; intros p s H.
  - cbn. lia.
  - destruct s as [|c s]; [discriminate H|].
    cbn [startswith_ci] in H. apply andb_true_iff in H as [_ H].
    cbn [String.length advance snd]. rewrite IH by exact H. reflexivity.
Qed.

Lemma startswith_ci_length (k s : string) :
  startswith_ci s k = true -> (String.length k <= String.length s)%nat.
Proof.
  revert s. induction k as [|a k IH]; intros s H; cbn; [lia|].
  destruct s as [|b s]; [discriminate H|].
  cbn [startswith_ci] in H. apply andb_true_iff in H as [_ H].
  cbn. specialize (IH s H). lia.
Qed.

(** Inside an occurrence of [k] no other occurrence starts. *)
Lemma no_boundary_match_inside (first : ascii) (k' : string) (before : ascii)
    (rest s : string) (p : ascii) :
  overlap_free_from first before rest = true ->
  char_eq_ci before p = true ->
  startswith_ci s rest = true ->
  forall j, (j < String.length rest)%nat ->
    boundary_match_at (String first k') (advance j (Some p, s)) = false.
Proof.
  revert before s p.
  induction rest as [|kc rest IH]; intros before s p Hfree Hp Hs j Hj.
  - cbn in Hj. lia.
  - destruct s as [|c s]; [discriminate Hs|].
    cbn [startswith_ci] in Hs. apply andb_true_iff in Hs as [Hc Hs].
    cbn [overlap_free_from] in Hfree.
    apply andb_true_iff in Hfree as [Hhere Hfree].
    destruct j as [|j].
    + cbn [advance]. unfold boundary_match_at.
      destruct (at_boundary (Some p, String c s)) eqn:Hb; [|reflexivity].
      cbn [snd startswith_ci].
      destruct (char_eq_ci first c) eqn:Hf; [|reflexivity].
      exfalso.
      unfold at_boundary, word_before, word_after in Hb. cbn [fst snd] in Hb.
      rewrite <- (char_eq_ci_word _ _ Hp), <- (char_eq_ci_word _ _ Hc) in Hb.
      rewrite Hb in Hhere.
      rewrite (char_eq_ci_trans first c kc Hf Hc) in Hhere.
      discriminate Hhere.
    + cbn [advance snd]. apply (IH kc s c Hfree Hc Hs).
      cbn in Hj. lia.
Qed.

Lemma char_eq_ci_refl (c : ascii) : char_eq_ci c c = true.
Proof. unfold char_eq_ci. apply Ascii.eqb_refl. Qed.

Lemma findall_word_regex (k : string) :
  overlap_free k = true ->
  forall (s : string) (prev : option ascii) (skip : nat),
    (forall j, (j < skip)%nat ->
               boundary_match_at k (advance j (prev, s)) = false) ->
    findall_from (word_regex k) prev s skip = count_boundary_matches k prev s.
Proof.
  intros Hk. destruct k as [|first k']; [discriminate Hk|].
  cbn [overlap_free] in Hk.
  induction s as [|c s IH]; intros prev skip Hskip.
  - destruct skip as [|skip]; cbn [findall_from count_boundary_matches].
    + rewrite match_at_word_regex.
      destruct (boundary_match_at (String first k') (prev, EmptyString)) eqn:E;
        [|reflexivity].
      unfold boundary_match_at in E. cbn [snd startswith_ci] in E.
      rewrite andb_false_r in E. discriminate E.
    + pose proof (Hskip 0%nat ltac:(lia)) as H0. cbn [advance] in H0.
      rewrite H0. reflexivity.
  - destruct skip as [|skip]; cbn [findall_from count_boundary_matches].
    + rewrite match_at_word_regex.
      destruct (boundary_match_at (String first k') (prev, String c s)) eqn:E.
      * f_equal.
        pose proof E as E'. unfold boundary_match_at in E'.
        apply andb_true_iff in E' as [E' _].
        apply andb_true_iff in E' as [_ Hst].
        cbn [snd] in Hst.
        rewrite (length_advance _ _ prev Hst).
        pose proof (startswith_ci_length _ _ Hst) as Hlen.
        cbn [startswith_ci] in Hst.
        apply andb_true_iff in Hst as [Hc Hst].
        apply IH. intros j Hj.
        apply (no_boundary_match_inside first k' first k' s c Hk Hc Hst).
        cbn [String.length] in Hj, Hlen. lia.
      * apply IH. intros j Hj. lia.
    + pose proof (Hskip 0%nat ltac:(lia)) as H0. cbn [advance] in H0.
      rewrite H0. cbn [Z.add].
      apply IH. intros j Hj.
      specialize (Hskip (S j)). cbn [advance snd] in Hskip.
      apply Hskip. lia.
Qed.

(** Every keyword of the catalog compiles to [\b k \b] with [k] literal,
    and none can overlap itself. *)
Lemma catalog_keywords_literal :
  Forall (fun k => re_compile (keyword_pattern k) = Some (word_regex k)
                   /\ overlap_free k = true) all_keywords.
Proof.
  let l := eval vm_compute in all_keywords in change all_keywords with l.
  repeat (constructor; [split; vm_compute; reflexivity|]).
  constructor.
Qed.

Lemma keyword_count_is_boundary_matches (k content : string) :
  In k all_keywords ->
  re_findall_count (keyword_pattern k) content = boundary_match_count k content.
Proof.
  intros Hin.
  pose proof catalog_keywords_literal as HF.
  rewrite List.Forall_forall in HF. destruct (HF k Hin) as [Hc Hfree].
  unfold re_findall_count, boundary_match_count. rewrite Hc.
  apply findall_word_regex; [exact Hfree|].
  intros j Hj. lia.
Qed.







(** ** Scores *)

Lemma score_patterns_sum (w : Z) (content : string) (pats : list string)
    (score : Z) :
  score_patterns w content pats score
  = score + sum_over (fun p => if re_search p content then 10 * w else 0) pats.
Proof.
  unfold score_patterns. revert score.
  induction pats as [|p pats IH]; intros score; cbn [fold_left sum_over].
  - lia.
  - rewrite IH. destruct (re_search p content); lia.
Qed.

Lemma score_keywords_sum (w : Z) (content : string) (kws : list string)
    (score : Z) :
  score_keywords w content kws score
  = score
    + sum_over (fun k => re_findall_count (keyword_pattern k) content * w) kws.
Proof.
  unfold score_keywords. revert score.
  induction kws as [|k kws IH]; intros score; cbn [fold_left sum_over].
  - lia.
  - rewrite IH. lia.
Qed.

Lemma sum_over_ext {A : Type} (f g : A -> Z) (l : list A) :
  (forall x, In x l -> f x = g x) -> sum_over f l = sum_over g l.
Proof.
  induction l as [|x l IH]; intros H; cbn [sum_over]; [reflexivity|].
  rewrite (H x) by (now left). rewrite IH; [reflexivity|].
  intros y Hy. apply H. now right.
Qed.

Lemma dict_set_fresh (d : list (string * Z)) (k : string) (v : Z) :
  ~ In k (map fst d) -> dict_set d k v = (d ++ [(k, v)])%list.
Proof.
  induction d as [|[k0 v0] d IH]; cbn; intros H; [reflexivity|].
  destruct (String.eqb_spec k0 k) as [->|Hne]; [tauto|].
  rewrite IH by tauto. reflexivity.
Qed.

Lemma candidates_keys (catalog : list (string * config)) (content k : string) :
  In k (map fst (candidates catalog content)) -> In k (map fst catalog).
Proof.
  unfold candidates. induction catalog as [|e catalog IH]; cbn; [auto|].
  destruct (positive (scored content e)); cbn; intros H.
  - destruct H as [H|H]; auto.
  - auto.
Qed.

Lemma score_languages_app (catalog : list (string * config))
    (content : string) (scores : list (string * Z)) :
  List.NoDup (map fst catalog) ->
  (forall k, In k (map fst catalog) -> ~ In k (map fst scores)) ->
  score_languages catalog content scores
  = (scores ++ candidates catalog content)%list.
Proof.
  unfold score_languages, candidates. revert scores.
  induction catalog as [|[lang cfg] catalog IH]; intros scores Hnd Hfresh.
  - cbn. rewrite app_nil_r. reflexivity.
  - cbn [fold_left map List.filter fst snd]. inversion Hnd as [|? ? Hnotin Hnd']; subst.
    unfold positive at 1, scored at 1. cbn [fst snd].
    destruct (0 <? language_score cfg content) eqn:E.
    + rewrite dict_set_fresh by (apply Hfresh; now left).
      rewrite IH; [rewrite <- app_assoc; reflexivity | exact Hnd' |].
      intros k Hk Hin. rewrite map_app, in_app_iff in Hin.
      destruct Hin as [Hin|[<-|[]]].
      * apply (Hfresh k); [now right | exact Hin].
      * exact (Hnotin Hk).
    + apply IH; [exact Hnd'|].
      intros k Hk. apply Hfresh. now right.
Qed.

Lemma catalog_names_nodup : List.NoDup catalog_names.
Proof.
  rewrite catalog_names_eq.
  repeat (constructor; [cbn; intros H;
    repeat (destruct H as [H|H]; [discriminate H|]); exact H|]).
  constructor.
Qed.

(** The dict [scores] after the outer loop is the candidate set. *)
Lemma score_languages_candidates (content : string) :
  score_languages language_patterns content []
  = candidates language_patterns content.
Proof.
  rewrite score_languages_app; [reflexivity | apply catalog_names_nodup |].
  intros k _ [].
Qed.

Lemma nodup_keys_unique {A : Type} (l : list (string * A)) (k : string)
    (a b : A) :
  List.NoDup (map fst l) -> In (k, a) l -> In (k, b) l -> a = b.
Proof.
  induction l as [|[k0 a0] l IH]; cbn; intros Hnd Ha Hb; [contradiction|].
  inversion Hnd as [|? ? Hnotin Hnd']; subst.
  destruct Ha as [Ha|Ha], Hb as [Hb|Hb].
  - congruence.
  - inversion Ha; subst. exfalso. apply Hnotin.
    apply (in_map fst) in Hb. exact Hb.
  - inversion Hb; subst. exfalso. apply Hnotin.
    apply (in_map fst) in Ha. exact Ha.
  - apply IH; assumption.
Qed.

Lemma in_candidates (catalog : list (string * config)) (content : string)
    (k : string) (v : Z) :
  In (k, v) (candidates catalog content)
  <-> exists cfg, In (k, cfg) catalog
                  /\ v = language_score cfg content /\ 0 < v.
Proof.
  unfold candidates. rewrite filter_In, in_map_iff. split.
  - intros [[[k' cfg] [E Hin]] Hpos]. unfold scored in E. cbn in E.
    inversion E; subst. exists cfg. split; [exact Hin|]. split; [reflexivity|].
    unfold positive in Hpos. cbn in Hpos. apply Z.ltb_lt, Hpos.
  - intros (cfg & Hin & -> & Hpos). split.
    + exists (k, cfg). split; [reflexivity | exact Hin].
    + unfold positive. cbn. apply Z.ltb_lt, Hpos.
Qed.




(** ** The matcher on blank text *)

Lemma in_all_chars (c : ascii) : In c all_chars.
Proof.
  unfold all_chars. apply in_map_iff. exists (nat_of_ascii c).
  split; [apply ascii_nat_embedding|].
  apply in_seq. pose proof (nat_ascii_bounded c). lia.
Qed.

Lemma rejects_space_sound (ok : ascii -> bool) (c : ascii) :
  rejects_space ok = true -> is_space c = true -> ok c = false.
Proof.
  unfold rejects_space. rewrite forallb_forall. intros H Hc.
  specialize (H c (in_all_chars c)). rewrite Hc, andb_true_r in H.
  destruct (ok c); [discriminate H | reflexivity].
Qed.

Lemma space_not_word (c : ascii) : is_space c = true -> is_word c = false.
Proof. each_char c; intros H; try reflexivity; discriminate H. Qed.

Lemma blank_no_boundary (cur : cursor) :
  blank_cursor cur -> at_boundary cur = false.
Proof.
  destruct cur as [p s]. intros [Hp Hs]. cbn [fst snd] in *.
  unfold at_boundary, word_before, word_after. cbn [fst snd].
  assert (H1 : match p with Some c => is_word c | None => false end = false).
  { destruct p as [c|]; [apply space_not_word, Hp | reflexivity]. }
  assert (H2 : match s with String c _ => is_word c | EmptyString => false end
               = false).
  { destruct s as [|c s]; [reflexivity|].
    cbn in Hs. apply andb_true_iff in Hs as [Hc _].
    apply space_not_word, Hc. }
  rewrite H1, H2. reflexivity.
Qed.

Lemma blank_advance (n : nat) (cur : cursor) :
  blank_cursor cur -> blank_cursor (advance n cur).
Proof.
  revert cur. induction n as [|n IH]; intros [p s] H; [exact H|].
  cbn [advance snd]. destruct s as [|c s]; [exact H|].
  apply IH. destruct H as [_ Hs]. cbn [snd] in Hs.
  apply andb_true_iff in Hs as [Hc Hs]. split; assumption.
Qed.

Lemma advance_add (n m : nat) (cur : cursor) :
  advance m (advance n cur) = advance (n + m) cur.
Proof.
  revert cur. induction n as [|n IH]; intros [p s]; [reflexivity|].
  cbn [advance snd Nat.add]. destruct s as [|c s].
  - clear. induction m as [|m IHm]; [reflexivity|]. cbn [advance snd]. reflexivity.
  - apply IH.
Qed.

(** Whatever [rmatch] returns comes from the continuation, called at a
    position further right. *)
Lemma rmatch_continues (r : regex) :
  forall (k : cursor -> option cursor) (cur e : cursor),
    rmatch r k cur = Some e ->
    exists n, k (advance n cur) = Some e.
Proof.
  assert (Hstep : forall ok k cur e,
            step_char ok k cur = Some e -> exists n, k (advance n cur) = Some e).
  { intros ok k [p s] e H. unfold step_char in H. cbn [snd] in H.
    destruct s as [|c s]; [discriminate H|].
    destruct (ok c); [|discriminate H].
    exists 1%nat. exact H. }
  induction r as [| x | | negated items | | | | r1 IH1 r2 IH2 | r1 IH1 r2 IH2
                  | r1 IH1]; intros k cur e H; cbn [rmatch] in H.
  - exists 0%nat. exact H.
  - eapply Hstep, H.
  - eapply Hstep, H.
  - eapply Hstep, H.
  - destruct (fst cur); [discriminate H|]. exists 0%nat. exact H.
  - destruct (at_end cur); [|discriminate H]. exists 0%nat. exact H.
  - destruct (at_boundary cur); [|discriminate H]. exists 0%nat. exact H.
  - apply IH1 in H as [n H]. apply IH2 in H as [m H].
    exists (n + m)%nat. rewrite <- advance_add. exact H.
  - destruct (rmatch r1 k cur) eqn:E.
    + inversion H; subst. apply IH1 in E. exact E.
    + apply IH2 in H. exact H.
  - remember (String.length (snd cur)) as n eqn:En in H. clear En.
    revert cur H. induction n as [|n IHn]; intros cur H.
    + exists 0%nat. exact H.
    + match type of H with
      | match ?m with _ => _ end = _ => destruct m eqn:E
      end.
      * inversion H; subst. apply IH1 in E as [a E].
        destruct (advanced cur (advance a cur)); [|discriminate E].
        apply IHn in E as [b E].
        exists (a + b)%nat. rewrite <- advance_add. exact E.
      * exists 0%nat. exact H.
Qed.

Lemma never_blank_sound (r : regex) :
  never_blank r = true ->
  forall (k : cursor -> option cursor) (cur : cursor),
    blank_cursor cur -> rmatch r k cur = None.
Proof.
  assert (Hstep : forall ok k cur,
            rejects_space ok = true -> blank_cursor cur ->
            step_char ok k cur = None).
  { intros ok k [p s] Hok [_ Hs]. unfold step_char. cbn [snd] in *.
    destruct s as [|c s]; [reflexivity|].
    cbn in Hs. apply andb_true_iff in Hs as [Hc _].
    rewrite (rejects_space_sound ok c Hok Hc). reflexivity. }
  induction r as [| x | | negated items | | | | r1 IH1 r2 IH2 | r1 IH1 r2 IH2
                  | r1 IH1]; cbn [never_blank]; intros Hnb k cur Hcur;
    try discriminate Hnb; cbn [rmatch].
  - apply Hstep; assumption.
  - apply Hstep; assumption.
  - rewrite (blank_no_boundary cur Hcur). reflexivity.
  - apply orb_true_iff in Hnb as [Hnb|Hnb].
    + apply IH1; assumption.
    + destruct (rmatch r1 (rmatch r2 k) cur) as [e|] eqn:E; [|reflexivity].
      apply rmatch_continues in E as [n E].
      rewrite (IH2 Hnb k (advance n cur) (blank_advance n cur Hcur)) in E.
      discriminate E.
  - apply andb_true_iff in Hnb as [H1 H2].
    rewrite (IH1 H1 k cur Hcur). apply IH2; assumption.
Qed.

Lemma search_from_blank (r : regex) (s : string) (prev : option ascii) :
  never_blank r = true -> blank_cursor (prev, s) ->
  search_from r prev s = false.
Proof.
  intros Hnb. revert prev. induction s as [|c s IH]; intros prev Hcur;
    cbn [search_from]; unfold match_at;
    rewrite (never_blank_sound r Hnb Some _ Hcur); [reflexivity|].
  apply IH. destruct Hcur as [_ Hs]. cbn [snd] in Hs.
  apply andb_true_iff in Hs as [Hc Hs]. split; assumption.
Qed.

Lemma findall_from_blank (r : regex) (s : string) (prev : option ascii)
    (skip : nat) :
  never_blank r = true -> blank_cursor (prev, s) ->
  findall_from r prev s skip = 0.
Proof.
  intros Hnb. revert prev skip. induction s as [|c s IH]; intros prev skip Hcur.
  - destruct skip; cbn [findall_from]; [|reflexivity].
    unfold match_at. rewrite (never_blank_sound r Hnb Some _ Hcur). reflexivity.
  - assert (Hnext : blank_cursor (Some c, s)).
    { destruct Hcur as [_ Hs]. cbn [snd] in Hs.
      apply andb_true_iff in Hs as [Hc Hs]. split; assumption. }
    destruct skip; cbn [findall_from].
    + unfold match_at. rewrite (never_blank_sound r Hnb Some _ Hcur).
      apply IH, Hnext.
    + apply IH, Hnext.
Qed.

(** Every pattern the program hands to [re]: the patterns of the catalog,
    the keyword patterns and the code indicators. *)
Lemma program_patterns_compile :
  forallb compiles
    (all_patterns ++ map keyword_pattern all_keywords ++ code_indicators)
  = true.
Proof. vm_compute. reflexivity. Qed.

Lemma catalog_patterns_fail_on_blank :
  forallb fails_on_blank all_patterns = true.
Proof. vm_compute. reflexivity. Qed.

Lemma re_search_blank (pattern content : string) :
  fails_on_blank pattern = true -> all_space content = true ->
  re_search pattern content = false.
Proof.
  unfold fails_on_blank, re_search. intros Hp Hc.
  destruct (re_compile pattern) as [r|]; [|reflexivity].
  apply search_from_blank; [exact Hp|]. split; [exact I | exact Hc].
Qed.

Lemma keyword_count_blank (k content : string) :
  In k all_keywords -> all_space content = true ->
  re_findall_count (keyword_pattern k) content = 0.
Proof.
  intros Hin Hc.
  pose proof catalog_keywords_literal as HF.
  rewrite List.Forall_forall in HF. destruct (HF k Hin) as [Hk _].
  unfold re_findall_count. rewrite Hk.
  apply findall_from_blank; [reflexivity|]. split; [exact I | exact Hc].
Qed.

Lemma sum_over_zero {A : Type} (f : A -> Z) (l : list A) :
  (forall x, In x l -> f x = 0) -> sum_over f l = 0.
Proof.
  induction l as [|x l IH]; intros H; cbn [sum_over]; [reflexivity|].
  rewrite (H x) by (now left). rewrite IH; [reflexivity|].
  intros y Hy. apply H. now right.
Qed.

Lemma language_score_blank (lang : string) (cfg : config) (content : string) :
  In (lang, cfg) language_patterns -> all_space content = true ->
  language_score cfg content = 0.
Proof.
  intros Hin Hc. unfold language_score.
  rewrite score_keywords_sum, score_patterns_sum.
  rewrite !sum_over_zero; [reflexivity| |].
  - intros k Hk. rewrite keyword_count_blank; [reflexivity| |exact Hc].
    unfold all_keywords. apply in_flat_map.
    exists (lang, cfg). split; [exact Hin | exact Hk].
  - intros p Hp. rewrite re_search_blank; [reflexivity| |exact Hc].
    pose proof catalog_patterns_fail_on_blank as HF.
    rewrite forallb_forall in HF. apply HF.
    unfold all_patterns. apply in_flat_map.
    exists (lang, cfg). split; [exact Hin | exact Hp].
Qed.

Lemma candidates_blank (content : string) :
  all_space content = true -> candidates language_patterns content = [].
Proof.
  intros Hc.
  destruct (candidates language_patterns content) as [|[k v] l] eqn:E;
    [reflexivity|].
  assert (Hin : In (k, v) (candidates language_patterns content))
    by (rewrite E; now left).
  apply in_candidates in Hin as (cfg & Hin & -> & Hpos).
  rewrite (language_score_blank k cfg content Hin Hc) in Hpos. lia.
Qed.

Lemma rstrip_empty (s : string) :
  rstrip s = EmptyString -> all_space s = true.
Proof.
  induction s as [|c s IH]; [reflexivity|].
  cbn [rstrip all_space]. destruct (rstrip s) eqn:E; [|discriminate].
  destruct (is_space c); [|discriminate]. intros _. apply IH. reflexivity.
Qed.

Lemma lstrip_all_space (s : string) :
  all_space (lstrip s) = true -> all_space s = true.
Proof.
  induction s as [|c s IH]; [reflexivity|].
  cbn [lstrip all_space]. destruct (is_space c) eqn:E.
  - exact IH.
  - cbn [all_space]. rewrite E. discriminate.
Qed.

(** The blank test of the detector holds of white space only. *)
Lemma blank_test_all_space (content : string) :
  str_not content || str_not (strip content) = true ->
  all_space content = true.
Proof.
  intros H. apply orb_true_iff in H as [H|H].
  - destruct content; [reflexivity | discriminate H].
  - apply lstrip_all_space, rstrip_empty. unfold strip in H.
    destruct (rstrip (lstrip content)); [reflexivity | discriminate H].
Qed.

(** ** The first maximum *)

Lemma dict_get_in (d : list (string * Z)) (k : string) (v : Z) :
  List.NoDup (map fst d) -> In (k, v) d -> dict_get d k = Some v.
Proof.
  induction d as [|[k0 v0] d IH]; cbn; intros Hnd Hin; [contradiction|].
  inversion Hnd as [|? ? Hnotin Hnd']; subst.
  destruct (String.eqb_spec k0 k) as [->|Hne].
  - destruct Hin as [Hin|Hin]; [congruence|].
    exfalso. apply Hnotin. apply (in_map fst) in Hin. exact Hin.
  - destruct Hin as [Hin|Hin]; [congruence|]. apply IH; assumption.
Qed.

Lemma py_max_first_maximum (d : list (string * Z)) :
  List.NoDup (map fst d) -> d <> [] ->
  exists tag v,
    py_max (map fst d) (dict_get d) = Some tag /\ first_maximum d tag v.
Proof.
  intros Hnd Hne. destruct d as [|[k0 v0] rest]; [congruence|]. clear Hne.
  cbn [map fst py_max].
  set (d := (k0, v0) :: rest) in *.
  set (stepf := fun best it =>
                  if value_gt (dict_get d it) (dict_get d best) then it
                  else best).
  assert (G : forall todo before tag v after,
            d = ((before ++ (tag, v) :: after) ++ todo)%list ->
            (forall e, In e before -> snd e < v) ->
            (forall e, In e after -> snd e <= v) ->
            exists tag' v',
              fold_left stepf (map fst todo) tag = tag'
              /\ first_maximum d tag' v').
  { induction todo as [|[k w] todo IH]; intros before tag v after Hd Hb Ha.
    - exists tag, v. split; [reflexivity|].
      exists before, after. rewrite app_nil_r in Hd. auto.
    - cbn [map fst fold_left].
      assert (Hk : dict_get d k = Some w).
      { apply dict_get_in; [exact Hnd|]. rewrite Hd.
        apply in_or_app. right. now left. }
      assert (Ht : dict_get d tag = Some v).
      { apply dict_get_in; [exact Hnd|]. rewrite Hd.
        apply in_or_app. left. apply in_or_app. right. now left. }
      unfold stepf at 2. rewrite Hk, Ht. cbn [value_gt].
      destruct (v <? w) eqn:E.
      + apply Z.ltb_lt in E.
        apply (IH (before ++ (tag, v) :: after)%list k w []).
        * rewrite Hd. rewrite <- !app_assoc. cbn [app]. reflexivity.
        * intros e He. apply in_app_or in He as [He|[<-|He]].
          -- specialize (Hb e He). lia.
          -- cbn. lia.
          -- specialize (Ha e He). lia.
        * intros e [].
      + apply Z.ltb_ge in E.
        apply (IH before tag v (after ++ [(k, w)])%list).
        * rewrite Hd. rewrite <- !app_assoc. cbn [app].
          rewrite <- app_assoc. reflexivity.
        * exact Hb.
        * intros e He. apply in_app_or in He as [He|[<-|[]]].
          -- apply Ha, He.
          -- cbn. lia. }
  destruct (G rest [] k0 v0 [] eq_refl) as (tag & v & Hf & Hm).
  - intros e [].
  - intros e [].
  - exists tag, v. split; [f_equal; exact Hf | exact Hm].
Qed.

Lemma candidates_nodup (catalog : list (string * config)) (content : string) :
  List.NoDup (map fst catalog) ->
  List.NoDup (map fst (candidates catalog content)).
Proof.
  unfold candidates.
  induction catalog as [|[k cfg] catalog IH]; cbn [map List.filter fst];
    intros Hnd; [constructor|].
  inversion Hnd as [|? ? Hnotin Hnd']; subst.
  destruct (positive (scored content (k, cfg))).
  - cbn [map fst scored]. constructor; [|apply IH, Hnd'].
    intros Hin. apply Hnotin. apply (candidates_keys catalog content), Hin.
  - apply IH, Hnd'.
Qed.

Lemma filter_map_split {A B : Type} (P : B -> bool) (f : A -> B)
    (l : list A) (b' : list B) (x : B) (a' : list B) :
  List.filter P (map f l) = (b' ++ x :: a')%list ->
  exists b y a,
    l = (b ++ y :: a)%list /\ f y = x /\ P x = true
    /\ List.filter P (map f b) = b' /\ List.filter P (map f a) = a'.
Proof.
  revert b'. induction l as [|z l IH]; intros b' H; cbn [map List.filter] in H.
  - destruct b'; discriminate H.
  - destruct (P (f z)) eqn:E.
    + destruct b' as [|u b'].
      * cbn [app] in H. inversion H; subst.
        exists [], z, l. cbn. auto.
      * cbn [app] in H. inversion H; subst.
        destruct (IH b' H2) as (b & y & a & -> & Hy & Hp & Hb & Ha).
        exists (z :: b), y, a. cbn [app map List.filter]. rewrite E, Hb. auto.
    + destruct (IH b' H) as (b & y & a & -> & Hy & Hp & Hb & Ha).
      exists (z :: b), y, a. cbn [app map List.filter]. rewrite E. auto.
Qed.

Lemma first_maximum_candidates (catalog : list (string * config))
    (content tag : string) (v : Z) :
  first_maximum (candidates catalog content) tag v ->
  first_maximum_of_catalog catalog content tag v.
Proof.
  intros (b' & a' & Hd & Hb & Ha). unfold candidates in Hd.
  apply filter_map_split in Hd
    as (b & [k cfg] & a & -> & Hy & Hp & Hfb & Hfa).
  unfold scored in Hy. cbn [fst snd] in Hy. inversion Hy; subst.
  unfold positive in Hp. cbn [snd] in Hp. apply Z.ltb_lt in Hp.
  exists b, cfg, a. split; [reflexivity|]. split; [reflexivity|].
  split; [exact Hp|]. split.
  - intros e He.
    destruct (positive (scored content e)) eqn:E.
    + apply (Hb (scored content e)). apply filter_In. split; [|exact E].
      apply in_map, He.
    + unfold positive, scored in E. cbn [snd] in E.
      apply Z.ltb_ge in E. lia.
  - intros e He.
    destruct (positive (scored content e)) eqn:E.
    + apply (Ha (scored content e)). apply filter_In. split; [|exact E].
      apply in_map, He.
    + unfold positive, scored in E. cbn [snd] in E.
      apply Z.ltb_ge in E. lia.
Qed.

(** C8. When the shebang test returns nothing: if some profile has a
    positive score, the detector returns the tag of the first profile,
    in catalog order, whose score is the greatest, so that among equal
    top scores the profile inserted first wins; if no profile has a
    positive score, it returns [None]. The dict [scores] holds exactly the
    profiles with a positive score, in catalog order. *)
Theorem detect_returns_first_maximum :
  forall content : string,
    shebang (first_line_of content) = None ->
    let cands := candidates language_patterns content in
    score_languages language_patterns content [] = cands
    /\ (cands = [] -> detect_language_from_content content = None)
    /\ (cands <> [] ->
        exists tag v,
          detect_language_from_content content = Some tag
          /\ first_maximum cands tag v
          /\ first_maximum_of_catalog language_patterns content tag v).
Proof.
  intros content Hsh cands.
  split; [apply score_languages_candidates|].
  unfold detect_language_from_content, detect_language.
  destruct (str_not content || str_not (strip content)) eqn:Hblank.
  - apply blank_test_all_space, candidates_blank in Hblank.
    fold cands in Hblank. split; [reflexivity|]. intros Hne. congruence.
  - rewrite Hsh. unfold detect_by_score.
    rewrite score_languages_candidates. fold cands.
    split.
    + intros ->. reflexivity.
    + intros Hne.
      destruct (py_max_first_maximum cands) as (tag & v & Hmax & Hfm).
      * apply candidates_nodup, catalog_names_nodup.
      * exact Hne.
      * exists tag, v. split; [|split].
        -- destruct cands; [congruence | exact Hmax].
        -- exact Hfm.
        -- apply first_maximum_candidates, Hfm.
Qed.

Example tie_goes_to_first_inserted :
  candidates language_patterns tie_text
  = [("javascript"%string, 15); ("python"%string, 15); ("php"%string, 12);
     ("c"%string, 5)]
  /\ detect_language_from_content tie_text = Some "javascript"%string.
Proof. split; vm_compute; reflexivity. Qed.

Lemma detect_returns_first_maximum_witness :
  shebang (first_line_of tie_text) = None
  /\ exists tag v,
       detect_language_from_content tie_text = Some tag
       /\ first_maximum_of_catalog language_patterns tie_text tag v.
Proof.
  split; [reflexivity|].
  destruct (detect_returns_first_maximum tie_text eq_refl) as (_ & _ & H).
  destruct H as (tag & v & Hd & _ & Hm).
  - vm_compute. discriminate.
  - exists tag, v. split; assumption.
Defined.

(** ** The ratio test in binary64 *)

Lemma ratio_agrees_from_sound (fuel : nat) (c0 n : Z) :
  ratio_agrees_from fuel c0 n = true ->
  forall c, c0 <= c < c0 + Z.of_nat fuel ->
    ratio_exceeds c n = (3 * n <? 10 * c).
Proof.
  revert c0. induction fuel as [|f IH]; intros c0 H c Hc; [lia|].
  cbn [ratio_agrees_from] in H. apply andb_true_iff in H as [H1 H2].
  destruct (Z.eq_dec c c0) as [->|Hne].
  - apply eqb_prop, H1.
  - apply (IH (c0 + 1) H2). lia.
Qed.

Lemma ratio_agrees_upto_sound (fuel : nat) (n0 : Z) :
  0 <= n0 ->
  ratio_agrees_upto fuel n0 = true ->
  forall n c, n0 <= n < n0 + Z.of_nat fuel -> 0 <= c <= n ->
    ratio_exceeds c n = (3 * n <? 10 * c).
Proof.
  revert n0. induction fuel as [|f IH]; intros n0 Hn0 H n c Hn Hc; [lia|].
  cbn [ratio_agrees_upto] in H. apply andb_true_iff in H as [H1 H2].
  destruct (Z.eq_dec n n0) as [->|Hne].
  - apply (ratio_agrees_from_sound _ _ _ H1). lia.
  - apply (IH (n0 + 1) ltac:(lia) H2); lia.
Qed.

Lemma ratio_agrees_1001 : ratio_agrees_upto 1001 1 = true.
Proof. vm_cast_no_check (eq_refl true). Qed.

(** Up to 1001 lines, rounding the quotient to binary64 and comparing it
    with the binary64 value of 0.3 decides whether the exact ratio
    exceeds 3/10. *)
Lemma ratio_exceeds_exact (c n : Z) :
  1 <= n <= 1001 -> 0 <= c <= n ->
  ratio_exceeds c n = (3 * n <? 10 * c).
Proof.
  intros Hn Hc.
  apply (ratio_agrees_upto_sound 1001 1 ltac:(lia) ratio_agrees_1001); lia.
Qed.

(** ** Code lines *)

Lemma line_is_code_existsb (indicators : list string) (line : string) :
  line_is_code indicators line
  = existsb (fun pattern => re_search pattern line) indicators.
Proof.
  induction indicators as [|p ps IH]; cbn [line_is_code existsb];
    [reflexivity|].
  destruct (re_search p line); [reflexivity | exact IH].
Qed.

Lemma count_code_lines_total (lines : list string) :
  count_code_lines lines = code_line_total lines.
Proof.
  unfold count_code_lines, code_line_total.
  assert (G : forall acc,
            fold_left
              (fun code_line_count line =>
                 if line_is_code code_indicators line
                 then code_line_count + 1 else code_line_count) lines acc
            = acc + Z.of_nat (List.length (List.filter code_like lines))).
  { induction lines as [|l lines IH]; intros acc; cbn [fold_left List.filter].
    - cbn. lia.
    - rewrite IH, line_is_code_existsb. fold (code_like l).
      destruct (code_like l); cbn [List.length]; lia. }
  rewrite G. lia.
Qed.

Lemma code_line_total_le (lines : list string) :
  0 <= code_line_total lines <= Z.of_nat (List.length lines).
Proof.
  unfold code_line_total.
  pose proof (filter_length_le code_like lines). lia.
Qed.

(** The value of [should_create_paste] past the length gate, with the
    ratio test replaced by the exact comparison. *)
Lemma should_create_paste_eq (MIN_MESSAGE_LENGTH : Z) (text : string) :
  MIN_MESSAGE_LENGTH <= len text ->
  should_create_paste MIN_MESSAGE_LENGTH text
  = if (1000 <? len text)
       || (3 * Z.of_nat (List.length (split_lines text))
           <? 10 * code_line_total (split_lines text))
    then true
    else match detect_language_from_content text with
         | Some detected_lang => negb (str_not detected_lang)
         | None => false
         end.
Proof.
  intros Hmin. unfold should_create_paste.
  destruct (len text <? MIN_MESSAGE_LENGTH) eqn:E;
    [apply Z.ltb_lt in E; lia|].
  rewrite count_code_lines_total.
  destruct (1000 <? len text) eqn:Hlong; [reflexivity|].
  apply Z.ltb_ge in Hlong. cbn [orb].
  rewrite ratio_exceeds_exact; [reflexivity| |apply code_line_total_le].
  pose proof (split_lines_length_pos text).
  pose proof (split_lines_length_le text).
  unfold len in Hlong. lia.
Qed.

(** C4 as first stated fails when the threshold is set above 1000: with
    [MIN_MESSAGE_LENGTH = 2000], a text of 1200 characters is stopped at
    the length gate. *)
Example gate_precedes_override :
  1000 < len long_plain_text
  /\ should_create_paste 2000 long_plain_text = false.
Proof. split; vm_compute; reflexivity. Qed.

(** C4 (amended). A text that passes the length gate is turned into a
    paste when it has more than 1000 characters, whatever its lines look
    like, and also when the lines that some code indicator matches, each
    counted once, are more than 30% of all lines. The counter of the loop
    is that number of lines. *)
Theorem long_or_code_like_is_pasted :
  forall (MIN_MESSAGE_LENGTH : Z) (text : string),
    MIN_MESSAGE_LENGTH <= len text ->
    (1000 < len text -> should_create_paste MIN_MESSAGE_LENGTH text = true)
    /\ (3 * Z.of_nat (List.length (split_lines text))
        < 10 * code_line_total (split_lines text) ->
        should_create_paste MIN_MESSAGE_LENGTH text = true)
    /\ count_code_lines (split_lines text) = code_line_total (split_lines text).
Proof.
  intros m text Hmin. rewrite (should_create_paste_eq m text Hmin).
  split; [|split].
  - intros H. apply Z.ltb_lt in H. rewrite H. reflexivity.
  - intros H. apply Z.ltb_lt in H. rewrite H, orb_true_r. reflexivity.
  - apply count_code_lines_total.
Qed.

Lemma long_or_code_like_is_pasted_witness :
  (200 <= len long_plain_text /\ 1000 < len long_plain_text
   /\ should_create_paste 200 long_plain_text = true)
  /\ (200 <= len assignment_line
      /\ 3 * Z.of_nat (List.length (split_lines assignment_line))
         < 10 * code_line_total (split_lines assignment_line)
      /\ should_create_paste 200 assignment_line = true).
Proof.
  split.
  - split; [vm_compute; discriminate|]. split; [reflexivity|].
    apply (proj1 (long_or_code_like_is_pasted 200 long_plain_text
                    ltac:(vm_compute; discriminate))).
    reflexivity.
  - split; [vm_compute; discriminate|]. split; [vm_compute; reflexivity|].
    apply (proj1 (proj2 (long_or_code_like_is_pasted 200 assignment_line
                           ltac:(vm_compute; discriminate)))).
    vm_compute. reflexivity.
Defined.

(** C5. For a text that passes the length gate, has at most 1000
    characters and at most 30% code lines, the classifier says yes exactly
    when the detector returns a tag. *)
Theorem fallback_to_detector :
  forall (MIN_MESSAGE_LENGTH : Z) (text : string),
    MIN_MESSAGE_LENGTH <= len text ->
    len text <= 1000 ->
    10 * code_line_total (split_lines text)
    <= 3 * Z.of_nat (List.length (split_lines text)) ->
    (should_create_paste MIN_MESSAGE_LENGTH text = true
     <-> exists tag, detect_language_from_content text = Some tag).
Proof.
  intros m text Hmin Hmax Hratio.
  rewrite (should_create_paste_eq m text Hmin).
  apply Z.ltb_ge in Hmax, Hratio. rewrite Hmax, Hratio. cbn [orb].
  destruct (detect_language_from_content text) as [tag|] eqn:E.
  - rewrite (catalog_names_not_empty tag (detect_in_catalog text tag E)).
    split; [eauto | reflexivity].
  - split; [discriminate | intros [tag H]; discriminate H].
Qed.

Lemma fallback_to_detector_witness :
  (should_create_paste 200 prose_with_keyword = true
   <-> exists tag, detect_language_from_content prose_with_keyword = Some tag)
  /\ detect_language_from_content prose_with_keyword = Some "javascript"%string
  /\ detect_language_from_content plain_word = None
  /\ should_create_paste 200 plain_word = false.
Proof.
  split; [|split; [|split]].
  - apply (fallback_to_detector 200 prose_with_keyword);
      vm_compute; discriminate.
  - vm_compute. reflexivity.
  - vm_compute. reflexivity.
  - vm_compute. reflexivity.
Defined.

(** ** The scenarios of the specification *)

Example scenario_short_sentence :
  len short_sentence = 50
  /\ should_create_paste 200 short_sentence = false.
Proof. split; vm_compute; reflexivity. Qed.

Example scenario_python_snippet :
  len padded_snippet = 300
  /\ should_create_paste 200 padded_snippet = true
  /\ detect_language_from_content padded_snippet = Some "python"%string.
Proof. split; [|split]; vm_compute; reflexivity. Qed.

Example scenario_long_prose :
  len long_plain_text = 1200
  /\ detect_language_from_content long_plain_text = None
  /\ should_create_paste 200 long_plain_text = true.
Proof. split; [|split]; vm_compute; reflexivity. Qed.

(* ===================================================================== *)
(** * Further properties                                                  *)
(* ===================================================================== *)

(** ** Blank text *)

Lemma lstrip_blank (s : string) :
  all_space s = true -> lstrip s = EmptyString.
Proof.
  induction s as [|c s IH]; [reflexivity|].
  cbn [all_space lstrip]. intros H. apply andb_true_iff in H as [Hc Hs].
  rewrite Hc. apply IH, Hs.
Qed.

Lemma strip_blank (s : string) :
  all_space s = true -> strip s = EmptyString.
Proof. intros H. unfold strip. rewrite (lstrip_blank s H). reflexivity. Qed.

Lemma detect_language_blank (catalog : list (string * config))
    (content : string) :
  all_space content = true -> detect_language catalog content = None.
Proof.
  intros H. unfold detect_language.
  rewrite (strip_blank content H). cbn [str_not]. rewrite orb_true_r.
  reflexivity.
Qed.

(** X1. A text that is empty or made of white space only gets no tag,
    whatever the catalog holds. *)
Theorem detect_blank_is_none :
  forall content : string,
    all_space content = true ->
    detect_language_from_content content = None.
Proof. intros content H. apply detect_language_blank, H. Qed.

Lemma detect_blank_is_none_witness :
  all_space blank_text = true
  /\ detect_language_from_content blank_text = None.
Proof.
  split; [reflexivity|]. apply (detect_blank_is_none blank_text). reflexivity.
Defined.

Lemma contains_bash_sh (l : string) :
  contains "bash" l = true -> contains "sh" l = true.
Proof.
  induction l as [|c l IH]; cbn [contains]; intros H;
    apply orb_true_iff in H as [H|H]; try discriminate H.
  - destruct l as [|c2 [|c3 [|c4 l]]]; cbn [startswith] in H;
      repeat (apply andb_true_iff in H as [? H]); try discriminate H.
    repeat match goal with
           | E : Ascii.eqb _ _ = true |- _ => apply Ascii.eqb_eq in E; subst
           end.
    reflexivity.
  - rewrite (IH H). apply orb_true_r.
Qed.

(** X2. An interpreter line that names none of [python], [sh] and [node]
    does not end detection: the text is scored like any other. *)
Theorem unknown_shebang_is_scored :
  forall content : string,
    let line := hd EmptyString (split_lines content) in
    startswith line "#!" = true ->
    contains "python" (lower line) = false ->
    contains "sh" (lower line) = false ->
    contains "node" (lower line) = false ->
    detect_language_from_content content
    = detect_by_score language_patterns content.
Proof.
  intros content line Hs Hp Hsh Hn.
  unfold detect_language_from_content, detect_language.
  rewrite shebang_not_blank
    by (rewrite first_line_of_hd, startswith_lower_shebang; exact Hs).
  rewrite first_line_of_hd. fold line. unfold shebang.
  rewrite startswith_lower_shebang, Hs, Hp, Hsh, Hn.
  destruct (contains "bash" (lower line)) eqn:Hb; [|reflexivity].
  apply contains_bash_sh in Hb. congruence.
Qed.

Lemma unknown_shebang_is_scored_witness :
  startswith (hd EmptyString (split_lines perl_script)) "#!" = true
  /\ detect_language_from_content perl_script
     = detect_by_score language_patterns perl_script
  /\ detect_language_from_content perl_script = Some "python"%string.
Proof.
  split; [reflexivity|]. split; [|vm_compute; reflexivity].
  apply (unknown_shebang_is_scored perl_script); reflexivity.
Defined.

(** ** Keywords and word characters *)

Lemma count_boundary_matches_no_word (k : string) (s : string)
    (prev : option ascii) :
  match prev with Some c => is_word c = false | None => True end ->
  no_word s = true ->
  count_boundary_matches k prev s = 0.
Proof.
  revert prev. induction s as [|c s IH]; intros prev Hp Hs.
  - cbn [count_boundary_matches].
    unfold boundary_match_at, at_boundary, word_before, word_after.
    cbn [fst snd]. destruct prev as [p|]; [rewrite Hp|]; reflexivity.
  - cbn [no_word] in Hs. apply andb_true_iff in Hs as [Hc Hs].
    apply negb_true_iff in Hc.
    cbn [count_boundary_matches]. rewrite (IH (Some c) Hc Hs).
    unfold boundary_match_at, at_boundary, word_before, word_after.
    cbn [fst snd].
    rewrite Hc. destruct prev as [p|]; [rewrite Hp|]; reflexivity.
Qed.

(** X3. In a text without letters, digits and underscores no keyword
    counts, since a keyword counts only next to a word character: the
    score of every profile is what its patterns give. *)
Theorem keywords_need_word_characters :
  forall (content lang : string) (cfg : config),
    In (lang, cfg) language_patterns ->
    no_word content = true ->
    (forall k, In k (keywords cfg) ->
       re_findall_count (keyword_pattern k) content = 0)
    /\ language_score cfg content
       = sum_over
           (fun p => if re_search p content then 10 * weight cfg else 0)
           (patterns cfg).
Proof.
  intros content lang cfg Hin Hnw.
  assert (Hk : forall k, In k (keywords cfg) ->
                 re_findall_count (keyword_pattern k) content = 0).
  { intros k Hk. rewrite keyword_count_is_boundary_matches.
    - apply count_boundary_matches_no_word; [exact I | exact Hnw].
    - unfold all_keywords. apply in_flat_map.
      exists (lang, cfg). split; [exact Hin | exact Hk]. }
  split; [exact Hk|].
  unfold language_score. rewrite score_keywords_sum, score_patterns_sum.
  rewrite (sum_over_zero _ (keywords cfg)); [lia|].
  intros k Hkin. rewrite (Hk k Hkin). reflexivity.
Qed.

Lemma keywords_need_word_characters_witness :
  exists cfg,
    In ("json"%string, cfg) language_patterns
    /\ no_word json_brackets = true
    /\ language_score cfg json_brackets
       = sum_over
           (fun p => if re_search p json_brackets then 10 * weight cfg else 0)
           (patterns cfg)
    /\ language_score cfg json_brackets = 80.
Proof.
  eexists. split; [do 9 right; left; reflexivity|].
  split; [reflexivity|]. split; [|vm_compute; reflexivity].
  eapply (proj2 (keywords_need_word_characters json_brackets "json" _ _ _)).
  Unshelve.
  - do 9 right; left; reflexivity.
  - reflexivity.
Defined.

(** ** Scores are multiples of the weight *)

Lemma findall_from_nonneg (r : regex) (s : string) :
  forall (prev : option ascii) (skip : nat), 0 <= findall_from r prev s skip.
Proof.
  induction s as [|c s IH]; intros prev skip.
  - destruct skip; cbn [findall_from]; [|lia].
    destruct (match_at r (prev, EmptyString)); lia.
  - destruct skip; cbn [findall_from].
    + destruct (match_at r (prev, String c s)).
      * specialize (IH (Some c)
          (String.length (String c s) - String.length (snd c0) - 1)%nat). lia.
      * apply IH.
    + apply IH.
Qed.

Lemma re_findall_count_nonneg (pattern text : string) :
  0 <= re_findall_count pattern text.
Proof.
  unfold re_findall_count. destruct (re_compile pattern); [|lia].
  apply findall_from_nonneg.
Qed.

Lemma sum_over_multiple {A : Type} (f : A -> Z) (w : Z) (l : list A) :
  (forall x, In x l -> exists m, 0 <= m /\ f x = m * w) ->
  exists m, 0 <= m /\ sum_over f l = m * w.
Proof.
  induction l as [|x l IH]; intros H; cbn [sum_over].
  - exists 0. lia.
  - destruct (H x ltac:(now left)) as (m1 & Hm1 & E1).
    destruct IH as (m2 & Hm2 & E2); [intros y Hy; apply H; now right|].
    exists (m1 + m2). split; [lia|]. rewrite E1, E2. lia.
Qed.

Lemma catalog_weights_positive :
  forall lang cfg, In (lang, cfg) language_patterns -> 0 < weight cfg.
Proof.
  assert (H : forallb (fun e : string * config => 0 <? weight (snd e))
                language_patterns = true) by (vm_compute; reflexivity).
  rewrite forallb_forall in H. intros lang cfg Hin.
  apply Z.ltb_lt. apply (H (lang, cfg) Hin).
Qed.

(** X4. The score of a profile is never negative and is a whole multiple
    of the profile's weight; so a profile that enters the dict [scores]
    scores at least its weight. *)
Theorem score_is_multiple_of_weight :
  forall (content lang : string) (cfg : config),
    In (lang, cfg) language_patterns ->
    (exists m, 0 <= m /\ language_score cfg content = m * weight cfg)
    /\ 0 <= language_score cfg content
    /\ (forall v,
          In (lang, v) (score_languages language_patterns content []) ->
          weight cfg <= v).
Proof.
  intros content lang cfg Hin.
  pose proof (catalog_weights_positive lang cfg Hin) as Hw.
  assert (Hm : exists m, 0 <= m /\ language_score cfg content = m * weight cfg).
  { unfold language_score. rewrite score_keywords_sum, score_patterns_sum.
    destruct (sum_over_multiple
                (fun p => if re_search p content then 10 * weight cfg else 0)
                (weight cfg) (patterns cfg)) as (m1 & Hm1 & E1).
    { intros p _. destruct (re_search p content);
        [exists 10 | exists 0]; lia. }
    destruct (sum_over_multiple
                (fun k => re_findall_count (keyword_pattern k) content
                          * weight cfg)
                (weight cfg) (keywords cfg)) as (m2 & Hm2 & E2).
    { intros k _. eexists. split; [apply re_findall_count_nonneg|reflexivity]. }
    exists (m1 + m2). split; [lia|]. rewrite E1, E2. lia. }
  split; [exact Hm|]. destruct Hm as (m & Hm & E).
  split; [rewrite E; apply Z.mul_nonneg_nonneg; lia|].
  intros v Hv. rewrite score_languages_candidates in Hv.
  apply in_candidates in Hv as (cfg' & Hin' & -> & Hpos).
  rewrite <- (nodup_keys_unique language_patterns lang cfg cfg'
                catalog_names_nodup Hin Hin') in *.
  rewrite E in *.
  assert (Hm1 : 1 <= m).
  { destruct (Z.eq_dec m 0) as [->|Hne]; [lia|lia]. }
  replace (weight cfg) with (1 * weight cfg) at 1 by lia.
  apply Z.mul_le_mono_nonneg_r; lia.
Qed.

Lemma score_is_multiple_of_weight_witness :
  exists cfg,
    In ("python"%string, cfg) language_patterns
    /\ weight cfg = 15
    /\ exists m, 0 <= m /\ language_score cfg python_snippet = m * weight cfg.
Proof.
  eexists. split; [do 3 right; left; reflexivity|].
  split; [reflexivity|].
  eapply (proj1 (score_is_multiple_of_weight python_snippet "python" _ _)).
  Unshelve. do 3 right; left; reflexivity.
Defined.

(** ** The classifier on blank text *)

Lemma split_lines_blank (s : string) :
  all_space s = true ->
  Forall (fun l => all_space l = true) (split_lines s).
Proof.
  induction s as [|c s IH]; intros H; cbn [split_lines].
  - constructor; [reflexivity | constructor].
  - cbn [all_space] in H. apply andb_true_iff in H as [Hc Hs].
    specialize (IH Hs).
    destruct (Ascii.eqb c "010").
    + constructor; [reflexivity | exact IH].
    + destruct (split_lines s) as [|l ls]; [repeat constructor; cbn; rewrite Hc; reflexivity|].
      inversion IH; subst. constructor; [|assumption].
      cbn [all_space]. rewrite Hc. assumption.
Qed.

Lemma code_indicators_fail_on_blank :
  forallb fails_on_blank code_indicators = true.
Proof. vm_compute. reflexivity. Qed.

Lemma code_like_blank (line : string) :
  all_space line = true -> code_like line = false.
Proof.
  intros H. unfold code_like.
  pose proof code_indicators_fail_on_blank as HF.
  rewrite forallb_forall in HF.
  induction code_indicators as [|p ps IH]; [reflexivity|].
  cbn [existsb]. rewrite re_search_blank; [|apply HF; now left|exact H].
  apply IH. intros q Hq. apply HF. now right.
Qed.

Lemma code_line_total_blank (lines : list string) :
  Forall (fun l => all_space l = true) lines -> code_line_total lines = 0.
Proof.
  unfold code_line_total. induction 1 as [|l ls Hl _ IH]; [reflexivity|].
  cbn [List.filter]. rewrite (code_like_blank l Hl). exact IH.
Qed.

(** X5. A text of white space only is turned into a paste exactly when it
    passes the length gate and has more than 1000 characters: none of its
    lines counts as code and the detector finds nothing. *)
Theorem blank_text_pasted_only_when_long :
  forall (MIN_MESSAGE_LENGTH : Z) (text : string),
    all_space text = true ->
    count_code_lines (split_lines text) = 0
    /\ should_create_paste MIN_MESSAGE_LENGTH text
       = (MIN_MESSAGE_LENGTH <=? len text) && (1000 <? len text).
Proof.
  intros m text H.
  assert (Hc : count_code_lines (split_lines text) = 0).
  { rewrite count_code_lines_total.
    apply code_line_total_blank, split_lines_blank, H. }
  split; [exact Hc|].
  destruct (m <=? len text) eqn:E.
  - apply Z.leb_le in E. rewrite (should_create_paste_eq m text E).
    rewrite <- count_code_lines_total, Hc.
    pose proof (detect_language_blank language_patterns text H) as Hd.
    fold (detect_language_from_content text) in Hd. rewrite Hd.
    replace (3 * Z.of_nat (List.length (split_lines text)) <? 10 * 0)
      with false by (symmetry; apply Z.ltb_ge; lia).
    rewrite orb_false_r. cbn [andb].
    destruct (1000 <? len text); reflexivity.
  - apply Z.leb_gt in E. unfold should_create_paste.
    apply Z.ltb_lt in E. rewrite E. reflexivity.
Qed.

Lemma blank_text_pasted_only_when_long_witness :
  all_space blank_text = true
  /\ should_create_paste 0 blank_text = false.
Proof.
  split; [reflexivity|].
  rewrite (proj2 (blank_text_pasted_only_when_long 0 blank_text eq_refl)).
  reflexivity.
Defined.

(** ** The ratio of code lines *)

(** X6. The division in the classifier is always defined and its
    quotient lies between 0 and 1: [split] returns at least one line, and
    the counter never exceeds the number of lines. *)
Theorem code_line_ratio_well_defined :
  forall text : string,
    1 <= Z.of_nat (List.length (split_lines text))
    /\ 0 <= count_code_lines (split_lines text)
         <= Z.of_nat (List.length (split_lines text)).
Proof.
  intros text. pose proof (split_lines_length_pos text).
  rewrite count_code_lines_total.
  pose proof (code_line_total_le (split_lines text)). lia.
Qed.

(** X7. For a text of at most 1000 characters, rounding in binary64 never
    changes the verdict of the ratio test: it holds exactly when more
    than three lines in ten are code lines. *)
Theorem ratio_test_is_exact :
  forall text : string,
    len text <= 1000 ->
    let lines := split_lines text in
    ratio_exceeds (count_code_lines lines) (Z.of_nat (List.length lines))
    = (3 * Z.of_nat (List.length lines) <? 10 * count_code_lines lines).
Proof.
  intros text Hlen lines. subst lines.
  pose proof (split_lines_length_pos text).
  pose proof (split_lines_length_le text).
  rewrite count_code_lines_total.
  apply ratio_exceeds_exact; [unfold len in Hlen; lia|].
  apply code_line_total_le.
Qed.

Lemma ratio_test_is_exact_witness :
  len python_snippet <= 1000
  /\ ratio_exceeds (count_code_lines (split_lines python_snippet))
       (Z.of_nat (List.length (split_lines python_snippet)))
     = true.
Proof.
  split; [vm_compute; discriminate|].
  rewrite (ratio_test_is_exact python_snippet ltac:(vm_compute; discriminate)).
  vm_compute. reflexivity.
Defined.

(** X8. Lowering the threshold never turns a yes into a no: a text that
    is pasted under a threshold is pasted under every smaller one. *)
Theorem lower_threshold_keeps_paste :
  forall (m1 m2 : Z) (text : string),
    m1 <= m2 ->
    should_create_paste m2 text = true ->
    should_create_paste m1 text = true.
Proof.
  intros m1 m2 text Hle. unfold should_create_paste.
  destruct (len text <? m2) eqn:E2; [discriminate|].
  apply Z.ltb_ge in E2.
  destruct (len text <? m1) eqn:E1; [apply Z.ltb_lt in E1; lia|].
  intros H. exact H.
Qed.

Lemma lower_threshold_keeps_paste_witness :
  should_create_paste 100 assignment_line = true.
Proof.
  apply (lower_threshold_keeps_paste 100 200 assignment_line); [lia|].
  vm_compute. reflexivity.
Defined.

(** ** Letter case *)

Lemma lower_char_idem (c : ascii) : lower_char (lower_char c) = lower_char c.
Proof. each_char c; reflexivity. Qed.

Lemma case_variants (c : ascii) :
  lower_char c = c
  \/ (upper_char (lower_char c) = c /\ upper_char c = c).
Proof.
  each_char c;
    first [left; reflexivity | right; split; reflexivity].
Qed.

Lemma is_space_lower (c : ascii) : is_space (lower_char c) = is_space c.
Proof. each_char c; reflexivity. Qed.

Lemma is_digit_lower (c : ascii) : is_digit (lower_char c) = is_digit c.
Proof. each_char c; reflexivity. Qed.

Lemma eqb_newline_lower (c : ascii) :
  Ascii.eqb (lower_char c) "010" = Ascii.eqb c "010".
Proof. each_char c; reflexivity. Qed.

Lemma char_eq_ci_lower (x c : ascii) :
  char_eq_ci x (lower_char c) = char_eq_ci x c.
Proof. unfold char_eq_ci. rewrite lower_char_idem. reflexivity. Qed.

Lemma item_match_lower (c : ascii) (it : cset_item) :
  item_match (lower_char c) it = item_match c it.
Proof.
  destruct it as [x|lo hi| | |]; cbn [item_match].
  - apply char_eq_ci_lower.
  - rewrite lower_char_idem.
    destruct (case_variants c) as [E|[E1 E2]].
    + rewrite E. reflexivity.
    + rewrite E1, E2.
      destruct (range_has lo hi c), (range_has lo hi (lower_char c));
        reflexivity.
  - apply is_word_lower.
  - apply is_space_lower.
  - apply is_digit_lower.
Qed.

Lemma set_match_lower (negated : bool) (items : list cset_item) (c : ascii) :
  set_match negated items (lower_char c) = set_match negated items c.
Proof.
  unfold set_match. f_equal.
  induction items as [|it items IH]; [reflexivity|].
  cbn [existsb]. rewrite item_match_lower, IH. reflexivity.
Qed.

Lemma length_lower (s : string) : String.length (lower s) = String.length s.
Proof. induction s as [|c s IH]; cbn; [reflexivity | rewrite IH; reflexivity]. Qed.

Lemma lower_idem (s : string) : lower (lower s) = lower s.
Proof.
  induction s as [|c s IH]; cbn [lower]; [reflexivity|].
  rewrite lower_char_idem, IH. reflexivity.
Qed.

Lemma at_boundary_lower (cur : cursor) :
  at_boundary (lower_cursor cur) = at_boundary cur.
Proof.
  destruct cur as [p s]. unfold at_boundary, word_before, word_after,
    lower_cursor. cbn [fst snd].
  f_equal.
  - destruct p as [c|]; cbn; [apply is_word_lower | reflexivity].
  - destruct s as [|c s]; cbn; [reflexivity | apply is_word_lower].
Qed.

Lemma at_end_lower (cur : cursor) :
  at_end (lower_cursor cur) = at_end cur.
Proof.
  destruct cur as [p s]. unfold at_end, lower_cursor. cbn [fst snd].
  destruct s as [|c [|c2 s]]; cbn [lower]; try reflexivity.
  apply eqb_newline_lower.
Qed.

Lemma advanced_lower (a b : cursor) :
  advanced (lower_cursor a) (lower_cursor b) = advanced a b.
Proof.
  unfold advanced, lower_cursor. cbn [snd]. rewrite !length_lower.
  reflexivity.
Qed.

Lemma step_char_lower (ok : ascii -> bool) (k k' : cursor -> option cursor)
    (cur : cursor) :
  (forall c, ok (lower_char c) = ok c) ->
  same_on_lower k k' ->
  step_char ok k' (lower_cursor cur) = option_map lower_cursor (step_char ok k cur).
Proof.
  intros Hok Hk. destruct cur as [p s]. unfold step_char, lower_cursor.
  cbn [fst snd]. destruct s as [|c s]; cbn [lower]; [reflexivity|].
  rewrite Hok. destruct (ok c); [|reflexivity].
  apply (Hk (Some c, s)).
Qed.

(** Matching on the lower-cased text mirrors matching on the text. *)
Lemma rmatch_lower (r : regex) :
  forall (k k' : cursor -> option cursor) (cur : cursor),
    same_on_lower k k' ->
    rmatch r k' (lower_cursor cur) = option_map lower_cursor (rmatch r k cur).
Proof.
  induction r as [| x | | negated items | | | | r1 IH1 r2 IH2 | r1 IH1 r2 IH2
                  | r1 IH1]; intros k k' cur Hk; cbn [rmatch].
  - apply Hk.
  - apply step_char_lower; [apply char_eq_ci_lower | exact Hk].
  - apply step_char_lower; [|exact Hk].
    intros c. rewrite eqb_newline_lower. reflexivity.
  - apply step_char_lower; [apply set_match_lower | exact Hk].
  - destruct cur as [[c|] s]; cbn; [reflexivity | apply (Hk (None, s))].
  - rewrite at_end_lower. destruct (at_end cur); [apply Hk | reflexivity].
  - rewrite at_boundary_lower. destruct (at_boundary cur); [apply Hk | reflexivity].
  - apply IH1. intros c. apply IH2, Hk.
  - rewrite (IH1 k k' cur Hk), (IH2 k k' cur Hk).
    destruct (rmatch r1 k cur); reflexivity.
  - assert (Hlen : String.length (snd (lower_cursor cur))
                   = String.length (snd cur))
      by (destruct cur; apply length_lower).
    rewrite Hlen. clear Hlen.
    generalize (String.length (snd cur)) as n.
    intros n. revert cur.
    induction n as [|n IHn]; intros cur; lazy beta iota fix.
    + apply Hk.
    + match goal with
      | |- _ = option_map _ (match rmatch r1 ?K cur with _ => _ end) =>
          rewrite (IH1 K _ cur)
      end.
      * rewrite (Hk cur).
        match goal with
        | |- context [option_map lower_cursor (rmatch r1 ?K cur)] =>
            destruct (rmatch r1 K cur)
        end; reflexivity.
      * intros c. rewrite advanced_lower.
        destruct (advanced cur c); [apply IHn | reflexivity].
Qed.

Lemma match_at_lower (r : regex) (cur : cursor) :
  match_at r (lower_cursor cur) = option_map lower_cursor (match_at r cur).
Proof. unfold match_at. apply rmatch_lower. intros c. reflexivity. Qed.

Lemma search_from_lower (r : regex) (s : string) (prev : option ascii) :
  search_from r (option_map lower_char prev) (lower s) = search_from r prev s.
Proof.
  revert prev. induction s as [|c s IH]; intros prev; cbn [search_from lower].
  - change (option_map lower_char prev, EmptyString)
      with (lower_cursor (prev, EmptyString)).
    rewrite match_at_lower. destruct (match_at r (prev, EmptyString)); reflexivity.
  - change (option_map lower_char prev, String (lower_char c) (lower s))
      with (lower_cursor (prev, String c s)).
    rewrite match_at_lower.
    destruct (match_at r (prev, String c s)); [reflexivity|].
    apply (IH (Some c)).
Qed.

Lemma findall_from_lower (r : regex) (s : string) (prev : option ascii)
    (skip : nat) :
  findall_from r (option_map lower_char prev) (lower s) skip
  = findall_from r prev s skip.
Proof.
  revert prev skip. induction s as [|c s IH]; intros prev skip;
    destruct skip as [|skip]; cbn [findall_from lower]; try reflexivity.
  - change (option_map lower_char prev, EmptyString)
      with (lower_cursor (prev, EmptyString)).
    rewrite match_at_lower. destruct (match_at r (prev, EmptyString)); reflexivity.
  - change (option_map lower_char prev, String (lower_char c) (lower s))
      with (lower_cursor (prev, String c s)).
    rewrite match_at_lower.
    destruct (match_at r (prev, String c s)) as [[p e]|]; cbn [option_map].
    + unfold lower_cursor. cbn [snd String.length]. rewrite !length_lower.
      rewrite (IH (Some c)). reflexivity.
    + apply (IH (Some c)).
  - apply (IH (Some c)).
Qed.

Lemma re_search_lower (pattern text : string) :
  re_search pattern (lower text) = re_search pattern text.
Proof.
  unfold re_search. destruct (re_compile pattern); [|reflexivity].
  apply (search_from_lower r text None).
Qed.

Lemma re_findall_count_lower (pattern text : string) :
  re_findall_count pattern (lower text) = re_findall_count pattern text.
Proof.
  unfold re_findall_count. destruct (re_compile pattern); [|reflexivity].
  apply (findall_from_lower r text None).
Qed.

Lemma language_score_lower (cfg : config) (content : string) :
  language_score cfg (lower content) = language_score cfg content.
Proof.
  unfold language_score. rewrite !score_keywords_sum, !score_patterns_sum.
  f_equal; [f_equal|]; apply sum_over_ext; intros x _.
  - rewrite re_search_lower. reflexivity.
  - rewrite re_findall_count_lower. reflexivity.
Qed.

Lemma score_languages_lower (catalog : list (string * config))
    (content : string) (scores : list (string * Z)) :
  score_languages catalog (lower content) scores
  = score_languages catalog content scores.
Proof.
  unfold score_languages. revert scores.
  induction catalog as [|e catalog IH]; intros scores; cbn [fold_left];
    [reflexivity|].
  rewrite language_score_lower. apply IH.
Qed.

Lemma lstrip_lower (s : string) : lstrip (lower s) = lower (lstrip s).
Proof.
  induction s as [|c s IH]; cbn [lower lstrip]; [reflexivity|].
  rewrite is_space_lower. destruct (is_space c); [exact IH | reflexivity].
Qed.

Lemma rstrip_lower (s : string) : rstrip (lower s) = lower (rstrip s).
Proof.
  induction s as [|c s IH]; cbn [lower rstrip]; [reflexivity|].
  rewrite IH, is_space_lower.
  destruct (rstrip s); cbn [lower]; [destruct (is_space c)|]; reflexivity.
Qed.

Lemma str_not_lower (s : string) : str_not (lower s) = str_not s.
Proof. destruct s; reflexivity. Qed.

Lemma split_lines_lower (s : string) :
  split_lines (lower s) = map lower (split_lines s).
Proof.
  induction s as [|c s IH]; cbn [lower split_lines]; [reflexivity|].
  rewrite eqb_newline_lower, IH.
  destruct (Ascii.eqb c "010"); [reflexivity|].
  destruct (split_lines s); reflexivity.
Qed.

Lemma first_line_of_lower (content : string) :
  first_line_of (lower content) = first_line_of content.
Proof.
  unfold first_line_of. rewrite split_lines_lower.
  destruct (split_lines content); cbn [map]; [reflexivity|].
  apply lower_idem.
Qed.

Lemma detect_language_lower (catalog : list (string * config))
    (content : string) :
  detect_language catalog (lower content) = detect_language catalog content.
Proof.
  unfold detect_language, strip, detect_by_score.
  rewrite lstrip_lower, rstrip_lower, !str_not_lower, first_line_of_lower,
    score_languages_lower.
  reflexivity.
Qed.

(** X9. On texts whose characters are all code points 0 to 255 the
    detector ignores letter case: two such texts with the same
    lower-cased form get the same tag. (A [string] holds code points 0
    to 255 only; above them [str.lower] and [re.IGNORECASE] no longer
    agree, and nothing is stated.) *)
Theorem detect_ignores_case :
  forall a b : string,
    lower a = lower b ->
    detect_language_from_content a = detect_language_from_content b.
Proof.
  intros a b H. unfold detect_language_from_content.
  rewrite <- (detect_language_lower language_patterns a),
          <- (detect_language_lower language_patterns b), H.
  reflexivity.
Qed.

Lemma detect_ignores_case_witness :
  detect_language_from_content "SELECT NAME FROM USERS"
  = detect_language_from_content "select name from users"
  /\ detect_language_from_content "select name from users"
     = Some "sql"%string.
Proof.
  split; [|vm_compute; reflexivity].
  apply (detect_ignores_case "SELECT NAME FROM USERS" "select name from users").
  reflexivity.
Defined.

Lemma line_is_code_lower (indicators : list string) (line : string) :
  line_is_code indicators (lower line) = line_is_code indicators line.
Proof.
  induction indicators as [|p ps IH]; cbn [line_is_code]; [reflexivity|].
  rewrite re_search_lower, IH. reflexivity.
Qed.

Lemma count_code_lines_lower (lines : list string) :
  count_code_lines (map lower lines) = count_code_lines lines.
Proof.
  unfold count_code_lines. generalize 0 as acc.
  induction lines as [|l lines IH]; intros acc; cbn [map fold_left];
    [reflexivity|].
  rewrite line_is_code_lower. apply IH.
Qed.

Lemma should_create_paste_lower (m : Z) (text : string) :
  should_create_paste m (lower text) = should_create_paste m text.
Proof.
  unfold should_create_paste, len.
  rewrite length_lower, split_lines_lower, count_code_lines_lower,
    length_map.
  fold (detect_language language_patterns (lower text)).
  unfold detect_language_from_content.
  rewrite detect_language_lower. reflexivity.
Qed.

(** X10. On texts whose characters are all code points 0 to 255 the
    classifier ignores letter case as well: under any threshold, two
    such texts with the same lower-cased form get the same verdict.
    Nothing is stated of texts with a code point above 255. *)
Theorem should_create_paste_ignores_case :
  forall (MIN_MESSAGE_LENGTH : Z) (a b : string),
    lower a = lower b ->
    should_create_paste MIN_MESSAGE_LENGTH a
    = should_create_paste MIN_MESSAGE_LENGTH b.
Proof.
  intros m a b H.
  rewrite <- (should_create_paste_lower m a),
          <- (should_create_paste_lower m b), H.
  reflexivity.
Qed.

Lemma should_create_paste_ignores_case_witness :
  should_create_paste 10 "SELECT NAME FROM USERS"
  = should_create_paste 10 "select name from users"
  /\ should_create_paste 10 "select name from users" = true.
Proof.
  split; [|vm_compute; reflexivity].
  apply (should_create_paste_ignores_case 10
           "SELECT NAME FROM USERS" "select name from users").
  reflexivity.
Defined.

(** ** Running computations *)

Lemma run_io_bind {A B : Type} (e : env) (m : io A) (f : A -> io B) :
  forall gets sends,
    run_io e (bind m f) gets sends
    = let '(a, t1) := run_io e m gets sends in
      let '(b, t2) :=
        run_io e (f a) (gets + count_gets t1) (sends + count_sends t1) in
      (b, t1 ++ t2).
Proof.
  induction m as [a | h k IH | h d k IH | c i k IH | msg k IH];
    intros gets sends; cbn [bind run_io].
  - cbn [count_gets count_sends]. rewrite !Nat.add_0_r.
    destruct (run_io e (f a) gets sends). reflexivity.
  - rewrite IH. destruct (run_io e (k (get_reply e gets)) (S gets) sends)
      as [a t1]. cbn [count_gets count_sends].
    replace (gets + S (count_gets t1))%nat with (S gets + count_gets t1)%nat
      by lia.
    destruct (run_io e (f a) _ _). reflexivity.
  - rewrite IH. destruct (run_io e (k (post_reply e d)) gets sends)
      as [a t1]. cbn [count_gets count_sends].
    destruct (run_io e (f a) _ _). reflexivity.
  - rewrite IH. destruct (run_io e (k (delete_raises e)) gets sends)
      as [a t1]. cbn [count_gets count_sends].
    destruct (run_io e (f a) _ _). reflexivity.
  - rewrite IH. destruct (run_io e (k (send_raises e sends)) gets (S sends))
      as [a t1]. cbn [count_gets count_sends].
    replace (sends + S (count_sends t1))%nat with (S sends + count_sends t1)%nat
      by lia.
    destruct (run_io e (f a) _ _). reflexivity.
Qed.

(** ** The paste store *)

Lemma find_alias_same_lower (items : list json) (a b : string) :
  lower a = lower b -> find_alias items a = find_alias items b.
Proof.
  intros H. induction items as [|lang rest IH]; cbn [find_alias];
    [reflexivity|].
  rewrite H, IH. reflexivity.
Qed.

Lemma with_first_language_keeps (data : paste_data)
    (reply : option response) :
  data_content (with_first_language data reply) = data_content data
  /\ data_expiration (with_first_language data reply) = data_expiration data
  /\ data_one_time (with_first_language data reply) = data_one_time data.
Proof.
  unfold with_first_language.
  destruct (checked_json reply) as [languages|]; [|auto].
  destruct (truthy languages); [|auto].
  destruct (py_first languages) as [first|]; [|auto].
  destruct (py_item first "id"); cbn; auto.
Qed.

Section StoreFacts.
Variable BOT_TOKEN : option string.
Variable WEBSITE_URL : string.
Variable PASTE_EXPIRATION_DAYS : Z.
Variable repr_other : json -> string.

Local Abbreviation headers := (bot_headers BOT_TOKEN).
Local Abbreviation create :=
  (create_paste BOT_TOKEN WEBSITE_URL PASTE_EXPIRATION_DAYS repr_other).
Local Abbreviation url_of := (paste_url WEBSITE_URL repr_other).

(** The run of [create_paste], case by case. *)
Lemma create_paste_run (e : env) (content : string)
    (language_alias : option string) (gets sends : nat) :
  let data := PasteData content PASTE_EXPIRATION_DAYS false None in
  let fallback n :=
    with_first_language data (get_reply e n) in
  run_io e (create content language_alias) gets sends
  = match language_alias with
    | Some alias =>
        if str_not alias then
          (url_of (post_reply e (fallback gets)),
           [EvGet headers; EvPost headers (fallback gets)])
        else
          let lang_id := id_by_alias (get_reply e gets) alias in
          if truthy lang_id then
            (url_of (post_reply e (set_language data lang_id)),
             [EvGet headers; EvPost headers (set_language data lang_id)])
          else
            (url_of (post_reply e (fallback (S gets))),
             [EvGet headers; EvGet headers;
              EvPost headers (fallback (S gets))])
    | None =>
        (url_of (post_reply e (fallback gets)),
         [EvGet headers; EvPost headers (fallback gets)])
    end.
Proof.
  cbv zeta. unfold create_paste.
  destruct language_alias as [alias|]; [destruct (str_not alias)|].
  - reflexivity.
  - cbn [bind get_language_id_by_alias run_io].
    destruct (truthy (id_by_alias (get_reply e gets) alias)); reflexivity.
  - reflexivity.
Qed.

(** X11. The lookup of a language by alias ignores letter case: two
    aliases that differ only in case get the same answer from the same
    reply of the store. *)
Theorem alias_lookup_ignores_case :
  forall (e : env) (a b : string) (gets sends : nat),
    lower a = lower b ->
    run_io e (get_language_id_by_alias BOT_TOKEN a) gets sends
    = run_io e (get_language_id_by_alias BOT_TOKEN b) gets sends.
Proof.
  intros e a b gets sends H. cbn [get_language_id_by_alias run_io].
  unfold id_by_alias.
  destruct (checked_json (get_reply e gets)) as [languages|]; [|reflexivity].
  destruct (py_iter languages) as [items|]; [|reflexivity].
  rewrite (find_alias_same_lower items a b H). reflexivity.
Qed.

Lemma find_alias_skips (alias : string) (before rest : list json) :
  other_aliases alias before ->
  find_alias (before ++ rest) alias = find_alias rest alias.
Proof.
  induction 1 as [|entry before (fields & a & -> & Ha & Hne) _ IH];
    [reflexivity|].
  cbn [app find_alias py_get]. rewrite Ha. cbn [py_lower].
  destruct (String.eqb_spec (lower a) (lower alias)) as [E|_];
    [contradiction | exact IH].
Qed.


(** X13. An entry that is not a dict, or whose alias is not a string,
    ends the lookup with [None] when it is reached, even if a later
    entry has the alias. *)
Theorem malformed_entry_aborts_lookup :
  forall (e : env) (alias : string) (before after : list json) (bad : json)
         (r : response) (gets sends : nat),
    get_reply e gets = Some r ->
    raises_for_status r = false ->
    json_body r = Some (JList (before ++ bad :: after)) ->
    other_aliases alias before ->
    (py_get bad "alias" (JStr EmptyString) = None
     \/ exists v, py_get bad "alias" (JStr EmptyString) = Some v
                  /\ py_lower v = None) ->
    run_io e (get_language_id_by_alias BOT_TOKEN alias) gets sends
    = (JNull, [EvGet headers]).
Proof.
  intros e alias before after bad r gets sends Hr Hs Hb Hbefore Hbad.
  cbn [get_language_id_by_alias run_io]. unfold id_by_alias, checked_json.
  rewrite Hr, Hs, Hb. cbn [py_iter].
  rewrite (find_alias_skips alias before _ Hbefore).
  cbn [find_alias].
  destruct Hbad as [-> | (v & -> & ->)]; reflexivity.
Qed.

(** X14. Whatever the store answers, [create_paste] requests the
    languages once or twice and then posts exactly once, last; every
    request carries the same headers; the post carries the text
    unchanged, the configured expiration and [one_time = False]; and what
    is returned depends on the reply to the post alone. *)
Theorem create_paste_posts_text_once :
  forall (e : env) (content : string) (language_alias : option string)
         (gets sends : nat),
    exists (n : nat) (data : paste_data),
      run_io e (create content language_alias) gets sends
      = (url_of (post_reply e data),
         repeat (EvGet headers) n ++ [EvPost headers data])
      /\ (n = 1 \/ n = 2)%nat
      /\ data_content data = content
      /\ data_expiration data = PASTE_EXPIRATION_DAYS
      /\ data_one_time data = false.
Proof.
  intros e content language_alias gets sends.
  assert (Hf : forall reply,
            let d := with_first_language
                       (PasteData content PASTE_EXPIRATION_DAYS false None)
                       reply in
            data_content d = content
            /\ data_expiration d = PASTE_EXPIRATION_DAYS
            /\ data_one_time d = false).
  { intros reply. cbv zeta.
    apply (with_first_language_keeps
             (PasteData content PASTE_EXPIRATION_DAYS false None)). }
  rewrite create_paste_run. cbv zeta.
  destruct language_alias as [alias|]; [destruct (str_not alias)|].
  - exists 1%nat. eexists. split; [reflexivity|]. split; [now left | apply Hf].
  - destruct (truthy (id_by_alias (get_reply e gets) alias)).
    + exists 1%nat. eexists. split; [reflexivity|]. split; [now left|].
      cbn. auto.
    + exists 2%nat. eexists. split; [reflexivity|]. split; [now right | apply Hf].
  - exists 1%nat. eexists. split; [reflexivity|]. split; [now left | apply Hf].
Qed.



(** X17. Without a detected language, the post names the id of the first
    language the store lists, after a single request. *)
Theorem no_alias_uses_first_language :
  forall (e : env) (content : string) (rest : list json)
         (first : list (string * json)) (id0 : json) (r : response)
         (gets sends : nat),
    get_reply e gets = Some r ->
    raises_for_status r = false ->
    json_body r = Some (JList (JObj first :: rest)) ->
    obj_get first "id" = Some id0 ->
    let data := PasteData content PASTE_EXPIRATION_DAYS false (Some id0) in
    run_io e (create content None) gets sends
    = (url_of (post_reply e data), [EvGet headers; EvPost headers data]).
Proof.
  intros e content rest first id0 r gets sends Hr Hs Hb Hid0 data.
  rewrite create_paste_run. cbv zeta.
  unfold with_first_language, checked_json. rewrite Hr, Hs, Hb.
  cbn [truthy py_first py_item]. rewrite Hid0. reflexivity.
Qed.

(** X18. When every request for the languages fails (the call raises,
    the status is 4xx or 5xx, or the body is no JSON), the text is still
    posted, without a language. *)
Theorem store_down_posts_without_language :
  forall (e : env) (content : string) (language_alias : option string)
         (gets sends : nat),
    (forall n, checked_json (get_reply e n) = None) ->
    let data := PasteData content PASTE_EXPIRATION_DAYS false None in
    exists n,
      run_io e (create content language_alias) gets sends
      = (url_of (post_reply e data),
         repeat (EvGet headers) n ++ [EvPost headers data]).
Proof.
  intros e content language_alias gets sends Hdown data.
  rewrite create_paste_run. cbv zeta.
  unfold with_first_language, id_by_alias. rewrite !Hdown. cbn [truthy].
  destruct language_alias as [alias|]; [destruct (str_not alias)|].
  - exists 1%nat. reflexivity.
  - exists 2%nat. reflexivity.
  - exists 1%nat. reflexivity.
Qed.

Lemma append_slash_not_empty (a b : string) :
  str_not (a +:+ "/" +:+ b) = false.
Proof. destruct a; reflexivity. Qed.

(** X19. A URL that [create_paste] returns carries the id the store
    answered with: the reply to the one POST of the run came without an
    error status and with a JSON object whose [id] is truthy, and the
    URL is the site's address, a slash and [str()] of that id; so it is
    never empty. *)
Theorem paste_url_has_site_prefix :
  forall (e : env) (content : string) (language_alias : option string)
         (gets sends : nat) (url : string),
    fst (run_io e (create content language_alias) gets sends) = Some url ->
    exists (n : nat) (data : paste_data) (r : response)
           (fields : list (string * json)) (paste_id : json),
      snd (run_io e (create content language_alias) gets sends)
      = repeat (EvGet headers) n ++ [EvPost headers data]
      /\ post_reply e data = Some r
      /\ raises_for_status r = false
      /\ json_body r = Some (JObj fields)
      /\ obj_get fields "id" = Some paste_id
      /\ truthy paste_id = true
      /\ url = WEBSITE_URL +:+ "/" +:+ py_str repr_other paste_id
      /\ str_not url = false.
Proof.
  intros e content language_alias gets sends url H.
  assert (G : forall data, url_of (post_reply e data) = Some url ->
            exists (r : response) (fields : list (string * json))
                   (paste_id : json),
              post_reply e data = Some r
              /\ raises_for_status r = false
              /\ json_body r = Some (JObj fields)
              /\ obj_get fields "id" = Some paste_id
              /\ truthy paste_id = true
              /\ url = WEBSITE_URL +:+ "/" +:+ py_str repr_other paste_id
              /\ str_not url = false).
  { intros data Hu. unfold paste_url, checked_json in Hu.
    destruct (post_reply e data) as [r|]; [|discriminate Hu].
    destruct (raises_for_status r) eqn:Hs; [discriminate Hu|].
    destruct (json_body r) as [paste|] eqn:Hb; [|discriminate Hu].
    destruct paste as [| | | | |items|fields]; try discriminate Hu.
    cbn [py_get] in Hu.
    destruct (obj_get fields "id") as [paste_id|] eqn:Hid;
      [|discriminate Hu].
    destruct (truthy paste_id) eqn:Ht; [|discriminate Hu].
    inversion Hu as [Hurl].
    exists r, fields, paste_id.
    repeat (split; [reflexivity || assumption|]).
    apply append_slash_not_empty. }
  rewrite create_paste_run in H |- *. cbv zeta in H |- *.
  destruct language_alias as [alias|]; [destruct (str_not alias)|].
  - destruct (G _ H) as (r & fields & paste_id & Hrest).
    exists 1%nat. eexists. exists r, fields, paste_id.
    split; [reflexivity | exact Hrest].
  - destruct (truthy (id_by_alias (get_reply e gets) alias));
      destruct (G _ H) as (r & fields & paste_id & Hrest);
      [exists 1%nat | exists 2%nat]; eexists; exists r, fields, paste_id;
      (split; [reflexivity | exact Hrest]).
  - destruct (G _ H) as (r & fields & paste_id & Hrest).
    exists 1%nat. eexists. exists r, fields, paste_id.
    split; [reflexivity | exact Hrest].
Qed.
End StoreFacts.

(** ** The message handler *)

Section HandlerFacts.
Context {time : Type}.
Variable elapsed_exceeds : time -> time -> Z -> bool.
Variable RATE_LIMIT_WINDOW : Z.
Variable MIN_MESSAGE_LENGTH : Z.
Variable BOT_TOKEN : option string.
Variable WEBSITE_URL : string.
Variable PASTE_EXPIRATION_DAYS : Z.
Variable repr_other : json -> string.
Variable mark_notice : string.
Variable mark_sorry : string.

Local Abbreviation headers := (bot_headers BOT_TOKEN).
Local Abbreviation create :=
  (create_paste BOT_TOKEN WEBSITE_URL PASTE_EXPIRATION_DAYS repr_other).
Local Abbreviation handle :=
  (handle_message elapsed_exceeds RATE_LIMIT_WINDOW MIN_MESSAGE_LENGTH
     BOT_TOKEN WEBSITE_URL PASTE_EXPIRATION_DAYS repr_other
     mark_notice mark_sorry).
Local Abbreviation apology := (sorry_error mark_sorry).
Local Abbreviation no_paste := (sorry_no_paste mark_sorry).
Local Abbreviation link := (notice mark_notice).
Local Abbreviation eligible := (eligible MIN_MESSAGE_LENGTH).
Local Abbreviation sent := (sent mark_sorry).

Lemma run_send_in_try {A : Type} (e : env) (m : message) (msg : outgoing)
    (a : A) (gets sends : nat) :
  run_io e (send_in_try mark_sorry m msg a) gets sends
  = (a, sent e m msg sends).
Proof.
  unfold send_in_try, sent. cbn [run_io].
  destruct (send_raises e sends); reflexivity.
Qed.

Lemma create_paste_sends_nothing (e : env) (content : string)
    (language_alias : option string) (gets sends : nat) :
  let t := snd (run_io e (create content language_alias) gets sends) in
  count_sends t = 0%nat /\ count_posts t = 1%nat /\ count_deletes t = 0%nat
  /\ (1 <= count_gets t <= 2)%nat.
Proof.
  rewrite create_paste_run. cbv zeta.
  destruct language_alias as [alias|]; [destruct (str_not alias)|];
    try (cbn; lia).
  destruct (truthy (id_by_alias (get_reply e gets) alias));
    cbn; lia.
Qed.

(** The actions of [create_paste] end with its only post. *)
Lemma create_paste_trace (e : env) (content : string)
    (language_alias : option string) (gets sends : nat) :
  exists (pre : list event) (data : paste_data),
    run_io e (create content language_alias) gets sends
    = (paste_url WEBSITE_URL repr_other (post_reply e data),
       pre ++ [EvPost headers data])
    /\ data_content data = content
    /\ count_posts pre = 0%nat
    /\ (forall h dt, ~ In (EvPost h dt) pre).
Proof.
  rewrite create_paste_run. cbv zeta.
  assert (H1 : forall h dt, ~ In (EvPost h dt) [EvGet headers]).
  { intros h dt [H|[]]. discriminate H. }
  assert (H2 : forall h dt, ~ In (EvPost h dt) [EvGet headers; EvGet headers]).
  { intros h dt [H|[H|[]]]; discriminate H. }
  pose proof (with_first_language_keeps
                (PasteData content PASTE_EXPIRATION_DAYS false None)) as Hk.
  destruct language_alias as [alias|]; [destruct (str_not alias)|].
  - exists [EvGet headers]. eexists. split; [reflexivity|].
    split; [apply Hk|]. split; [reflexivity | exact H1].
  - destruct (truthy (id_by_alias (get_reply e gets) alias)).
    + exists [EvGet headers]. eexists. split; [reflexivity|].
      split; [reflexivity|]. split; [reflexivity | exact H1].
    + exists [EvGet headers; EvGet headers]. eexists. split; [reflexivity|].
      split; [apply Hk|]. split; [reflexivity | exact H2].
  - exists [EvGet headers]. eexists. split; [reflexivity|].
    split; [apply Hk|]. split; [reflexivity | exact H1].
Qed.

(** The run of the handler on an eligible message. *)
Lemma handle_eligible_run (e : env) (now : time) (m : message) (u : user)
    (text : string) (d : gmap Z time) (gets sends : nat) :
  eligible m u text ->
  run_io e (handle now (Update (Some m)) d) gets sends
  = let '(paste_url, t) :=
      run_io e (create text (detect_language_from_content text)) gets sends in
    ((Returned, {[user_id u := now]}),
     t ++ match paste_url with
          | Some url =>
              if str_not url then sent e m (no_paste m) sends
              else EvDelete (chat_id m) (message_id m)
                   :: sent e m
                        (link m u (detect_language_from_content text) url)
                        sends
          | None => sent e m (no_paste m) sends
          end).
Proof.
  intros (Ht & Hne & Hu & Hbot & Hpriv & Hshould).
  unfold handle_message. cbn [update_message].
  rewrite Ht, Hne, Hu, Hbot, Hpriv, Hshould, check_rate_limit_eq.
  cbn [negb]. rewrite run_io_bind.
  pose proof (create_paste_sends_nothing e text
                (detect_language_from_content text) gets sends) as Hc.
  cbv zeta in Hc.
  destruct (run_io e (create text (detect_language_from_content text))
              gets sends) as [paste_url t].
  cbn [snd] in Hc. destruct Hc as (Hs & _). rewrite Hs, Nat.add_0_r.
  destruct paste_url as [url|]; [destruct (str_not url)|].
  - rewrite run_send_in_try. reflexivity.
  - cbn [run_io]. rewrite run_send_in_try. reflexivity.
  - rewrite run_send_in_try. reflexivity.
Qed.

(** X20. An update without a message, a message without text or with an
    empty text, a message from a bot and a message in a private chat are
    dropped: no request, no chat action, and the dict of the rate limiter
    is left as it was. *)
Theorem ignored_updates_do_nothing :
  forall (e : env) (now : time) (upd : update) (d : gmap Z time)
         (gets sends : nat),
    (update_message upd = None
     \/ exists m,
          update_message upd = Some m
          /\ (message_text m = None
              \/ message_text m = Some EmptyString
              \/ exists u,
                   from_user m = Some u
                   /\ (is_bot u = true \/ chat_type m = "private"%string))) ->
    run_io e (handle now upd d) gets sends = ((Returned, d), []).
Proof.
  intros e now upd d gets sends H. unfold handle_message.
  destruct H as [-> | (m & -> & H)]; [reflexivity|].
  destruct H as [-> | [-> | (u & -> & H)]]; try reflexivity.
  destruct (message_text m) as [text|]; [|reflexivity].
  destruct (str_not text); [reflexivity|].
  destruct H as [-> | ->]; [reflexivity|].
  destruct (is_bot u); reflexivity.
Qed.

(** X21. A message the classifier turns down costs nothing: no request,
    no chat action, and the sender's entry in the rate limiter is not
    touched. *)
Theorem ineligible_text_does_nothing :
  forall (e : env) (now : time) (m : message) (u : user) (text : string)
         (d : gmap Z time) (gets sends : nat),
    message_text m = Some text ->
    from_user m = Some u ->
    should_create_paste MIN_MESSAGE_LENGTH text = false ->
    run_io e (handle now (Update (Some m)) d) gets sends = ((Returned, d), []).
Proof.
  intros e now m u text d gets sends Ht Hu Hs. unfold handle_message.
  cbn [update_message]. rewrite Ht, Hu, Hs.
  destruct (str_not text); [reflexivity|].
  destruct (is_bot u); [reflexivity|].
  destruct (String.eqb (chat_type m) "private"); reflexivity.
Qed.

(** X22. An eligible message takes the sender's slot and is posted once,
    whatever the store and the chat answer: the handler returns, the dict
    afterwards holds the sender at the current time, exactly one post is
    made, and it carries the text of the message unchanged. *)
Theorem eligible_message_takes_slot :
  forall (e : env) (now : time) (m : message) (u : user) (text : string)
         (d : gmap Z time) (gets sends : nat),
    eligible m u text ->
    let '(result, t) := run_io e (handle now (Update (Some m)) d) gets sends in
    result = (Returned, {[user_id u := now]})
    /\ count_posts t = 1%nat
    /\ (forall h data, In (EvPost h data) t -> data_content data = text).
Proof.
  intros e now m u text d gets sends He.
  rewrite (handle_eligible_run e now m u text d gets sends He).
  destruct (create_paste_trace e text (detect_language_from_content text)
              gets sends) as (pre & data & -> & Hc & Hp1 & Hp2).
  split; [reflexivity|].
  assert (Hsent : forall msg, count_posts (sent e m msg sends) = 0%nat
                    /\ forall h dt, ~ In (EvPost h dt) (sent e m msg sends)).
  { intros msg. unfold sent. destruct (send_raises e sends); cbn.
    - split; [reflexivity|]. intros h dt [H|[H|[]]]; discriminate H.
    - split; [reflexivity|]. intros h dt [H|[]]; discriminate H. }
  assert (Happ : forall a b, count_posts (a ++ b)
                             = (count_posts a + count_posts b)%nat).
  { induction a as [|[] a IH]; intros b; cbn; rewrite ?IH; reflexivity. }
  match goal with
  | |- context [(pre ++ [EvPost headers data]) ++ ?x] => set (tail := x)
  end.
  assert (Htail : count_posts tail = 0%nat
                  /\ forall h dt, ~ In (EvPost h dt) tail).
  { subst tail.
    destruct (paste_url WEBSITE_URL repr_other (post_reply e data)) as [url|];
      [destruct (str_not url)|]; try apply Hsent.
    destruct (Hsent (link m u (detect_language_from_content text) url))
      as [H1 H2].
    split; [exact H1|]. intros h dt [H|H]; [discriminate H|].
    exact (H2 h dt H). }
  destruct Htail as [Ht1 Ht2].
  split.
  - rewrite !Happ, Hp1, Ht1. reflexivity.
  - intros h dt Hin. apply in_app_or in Hin as [Hin|Hin].
    + apply in_app_or in Hin as [Hin|[Hin|[]]].
      * exfalso. exact (Hp2 h dt Hin).
      * inversion Hin as [[Eh Ed]]. rewrite <- Ed. exact Hc.
    + exfalso. exact (Ht2 h dt Hin).
Qed.




(** X24. When no paste is created, the original message is not deleted:
    after the requests to the store the only chat action is the apology,
    sent as a reply to the message (and a second apology if the first
    raised). *)
Theorem failure_keeps_message :
  forall (e : env) (now : time) (m : message) (u : user) (text : string)
         (d : gmap Z time) (gets sends : nat),
    eligible m u text ->
    fst (run_io e (create text (detect_language_from_content text))
           gets sends) = None ->
    let t := snd (run_io e (handle now (Update (Some m)) d) gets sends) in
    t = snd (run_io e (create text (detect_language_from_content text))
               gets sends)
        ++ EvSend (no_paste m)
           :: (if send_raises e sends then [EvSend (apology m)] else [])
    /\ count_deletes t = 0%nat
    /\ out_reply_to_message_id (no_paste m) = Some (message_id m).
Proof.
  intros e now m u text d gets sends He Hnone.
  rewrite (handle_eligible_run e now m u text d gets sends He).
  pose proof (create_paste_sends_nothing e text
                (detect_language_from_content text) gets sends) as Hc.
  cbv zeta in Hc.
  destruct (run_io e (create text (detect_language_from_content text))
              gets sends) as [paste_url t].
  cbn [fst snd] in *. subst paste_url. cbv zeta. cbn [snd].
  split; [reflexivity|]. split; [|reflexivity].
  destruct Hc as (_ & _ & Hd & _).
  assert (Happ : forall a b, count_deletes (a ++ b)
                             = (count_deletes a + count_deletes b)%nat).
  { induction a as [|[] a IH]; intros b; cbn; rewrite ?IH; reflexivity. }
  rewrite Happ, Hd. unfold sent.
  destruct (send_raises e sends); reflexivity.
Qed.

(** The handler returns whenever the message has a sender. *)
Lemma handle_returns (e : env) (now : time) (m : message) (u : user)
    (d : gmap Z time) (gets sends : nat) :
  from_user m = Some u ->
  fst (fst (run_io e (handle now (Update (Some m)) d) gets sends)) = Returned.
Proof.
  intros Hu.
  destruct (message_text m) as [text|] eqn:Ht;
    [|unfold handle_message; cbn [update_message]; rewrite Ht; reflexivity].
  destruct (str_not text) eqn:Hne;
    [unfold handle_message; cbn [update_message]; rewrite Ht, Hne;
     reflexivity|].
  destruct (is_bot u) eqn:Hbot;
    [unfold handle_message; cbn [update_message];
     rewrite Ht, Hne, Hu, Hbot; reflexivity|].
  destruct (String.eqb (chat_type m) "private") eqn:Hpriv;
    [unfold handle_message; cbn [update_message];
     rewrite Ht, Hne, Hu, Hbot, Hpriv; reflexivity|].
  destruct (should_create_paste MIN_MESSAGE_LENGTH text) eqn:Hs;
    [|unfold handle_message; cbn [update_message];
      rewrite Ht, Hne, Hu, Hbot, Hpriv, Hs; reflexivity].
  rewrite (handle_eligible_run e now m u text d gets sends);
    [|repeat split; assumption].
  destruct (run_io e (create text (detect_language_from_content text))
              gets sends). reflexivity.
Qed.

(** X25. No failure of the store or of the chat leaves the handler: it
    raises only for a message that has a text and no sender, when it
    reads [from_user.is_bot]. *)
Theorem handler_raises_only_without_sender :
  forall (e : env) (now : time) (upd : update) (d : gmap Z time)
         (gets sends : nat),
    fst (fst (run_io e (handle now upd d) gets sends)) = Raised
    <-> exists m text,
          update_message upd = Some m
          /\ message_text m = Some text
          /\ str_not text = false
          /\ from_user m = None.
Proof.
  intros e now [[m|]] d gets sends; split.
  - intros H. destruct (from_user m) as [u|] eqn:Hu.
    + rewrite (handle_returns e now m u d gets sends Hu) in H. discriminate H.
    + unfold handle_message in H. cbn [update_message] in H.
      destruct (message_text m) as [text|] eqn:Ht; [|discriminate H].
      destruct (str_not text) eqn:Hne; [discriminate H|].
      exists m, text. auto.
  - intros (m' & text & Hm & Ht & Hne & Hu). cbn [update_message] in Hm.
    inversion Hm; subst m'. unfold handle_message. cbn [update_message].
    rewrite Ht, Hne, Hu. reflexivity.
  - intros H. discriminate H.
  - intros (m' & text & Hm & _). discriminate Hm.
Qed.

(** X26. What the dict of the rate limiter holds never changes what the
    handler does: with any two dicts it ends the same way and takes the
    same actions, so an earlier paste of the sender does not hold back
    the next one. *)
Theorem earlier_pastes_never_block :
  forall (e : env) (now : time) (upd : update) (d1 d2 : gmap Z time)
         (gets sends : nat),
    fst (fst (run_io e (handle now upd d1) gets sends))
    = fst (fst (run_io e (handle now upd d2) gets sends))
    /\ snd (run_io e (handle now upd d1) gets sends)
       = snd (run_io e (handle now upd d2) gets sends).
Proof.
  intros e now [[m|]] d1 d2 gets sends; [|split; reflexivity].
  destruct (message_text m) as [text|] eqn:Ht;
    [|unfold handle_message; cbn [update_message]; rewrite Ht;
      split; reflexivity].
  destruct (str_not text) eqn:Hne;
    [unfold handle_message; cbn [update_message]; rewrite Ht, Hne;
     split; reflexivity|].
  destruct (from_user m) as [u|] eqn:Hu;
    [|unfold handle_message; cbn [update_message]; rewrite Ht, Hne, Hu;
      split; reflexivity].
  destruct (is_bot u) eqn:Hbot;
    [unfold handle_message; cbn [update_message];
     rewrite Ht, Hne, Hu, Hbot; split; reflexivity|].
  destruct (String.eqb (chat_type m) "private") eqn:Hpriv;
    [unfold handle_message; cbn [update_message];
     rewrite Ht, Hne, Hu, Hbot, Hpriv; split; reflexivity|].
  destruct (should_create_paste MIN_MESSAGE_LENGTH text) eqn:Hs;
    [|unfold handle_message; cbn [update_message];
      rewrite Ht, Hne, Hu, Hbot, Hpriv, Hs; split; reflexivity].
  assert (He : eligible m u text) by (repeat split; assumption).
  rewrite (handle_eligible_run e now m u text d1 gets sends He),
          (handle_eligible_run e now m u text d2 gets sends He).
  split; reflexivity.
Qed.
End HandlerFacts.

(** ** Sample runs *)


Lemma alias_lookup_ignores_case_witness :
  run_io sample_env (get_language_id_by_alias None "PYTHON") 0 0
  = run_io sample_env (get_language_id_by_alias None "python") 0 0
  /\ fst (run_io sample_env (get_language_id_by_alias None "python") 0 0)
     = JInt 7.
Proof.
  split; [|reflexivity].
  apply (alias_lookup_ignores_case None sample_env "PYTHON" "python" 0 0).
  reflexivity.
Defined.


Lemma malformed_entry_aborts_lookup_witness :
  run_io string_env (get_language_id_by_alias None "python") 0 0
  = (JNull, [EvGet []]).
Proof.
  apply (malformed_entry_aborts_lookup None string_env "python" []
           [language_entry (JInt 7) "python"] (JStr "oops")
           (Response 200 (Some languages_with_string)) 0 0);
    try reflexivity.
  - constructor.
  - left. reflexivity.
Defined.



Lemma no_alias_uses_first_language_witness :
  snd (run_io sample_env
         (create_paste None "http://localhost:8000" 7
            (fun _ => EmptyString) "some text" None) 0 0)
  = [EvGet []; EvPost [] (PasteData "some text" 7 false (Some (JInt 3)))].
Proof.
  rewrite (no_alias_uses_first_language None "http://localhost:8000" 7
             (fun _ => EmptyString) sample_env "some text"
             [language_entry (JInt 7) "Python"; language_entry (JInt 9) "python"]
             [("id"%string, JInt 3); ("alias"%string, JStr "Text")]
             (JInt 3) (Response 200 (Some sample_languages)) 0 0);
    reflexivity.
Defined.

Lemma store_down_posts_without_language_witness :
  exists n,
    run_io broken_env
      (create_paste None "http://localhost:8000" 7
         (fun _ => EmptyString) "print(1)" (Some "python"%string)) 0 0
    = (None,
       repeat (EvGet []) n ++ [EvPost [] (PasteData "print(1)" 7 false None)]).
Proof.
  apply (store_down_posts_without_language None "http://localhost:8000" 7
           (fun _ => EmptyString) broken_env "print(1)"
           (Some "python"%string) 0 0).
  intros n. reflexivity.
Defined.

Lemma paste_url_has_site_prefix_witness :
  fst (run_io sample_env
         (create_paste None "http://localhost:8000" 7
            (fun _ => EmptyString) "some text" None) 0 0)
  = Some "http://localhost:8000/abc123"%string
  /\ exists (n : nat) (data : paste_data) (r : response)
            (fields : list (string * json)) (paste_id : json),
       snd (run_io sample_env
              (create_paste None "http://localhost:8000" 7
                 (fun _ => EmptyString) "some text" None) 0 0)
       = repeat (EvGet (bot_headers None)) n
         ++ [EvPost (bot_headers None) data]
       /\ post_reply sample_env data = Some r
       /\ raises_for_status r = false
       /\ json_body r = Some (JObj fields)
       /\ obj_get fields "id" = Some paste_id
       /\ truthy paste_id = true
       /\ "http://localhost:8000/abc123"%string
          = ("http://localhost:8000" +:+ "/"
             +:+ py_str (fun _ => EmptyString) paste_id)%string
       /\ str_not "http://localhost:8000/abc123" = false.
Proof.
  split; [reflexivity|].
  apply (paste_url_has_site_prefix None "http://localhost:8000" 7
           (fun _ => EmptyString) sample_env "some text" None 0 0
           "http://localhost:8000/abc123").
  reflexivity.
Defined.

Lemma sample_eligible :
  eligible 200 (group_message assignment_line) sample_user assignment_line.
Proof.
  unfold eligible.
  refine (conj eq_refl (conj eq_refl (conj eq_refl (conj eq_refl
            (conj eq_refl _))))).
  vm_compute. reflexivity.
Qed.

Lemma ignored_updates_do_nothing_witness :
  run_io sample_env
    (sample_handle 100 (Update (Some (private_message assignment_line)))
       {[42 := 5]}) 0 0
  = ((Returned, {[42 := 5]}), []).
Proof.
  apply (ignored_updates_do_nothing elapsed_exceeds_Z 60 200
           (Some "secret"%string) "http://localhost:8000" 7
           (fun _ => EmptyString) EmptyString EmptyString sample_env 100
           (Update (Some (private_message assignment_line))) {[42 := 5]} 0 0).
  right. exists (private_message assignment_line). split; [reflexivity|].
  right. right. exists sample_user. split; [reflexivity|]. right. reflexivity.
Defined.

Lemma ineligible_text_does_nothing_witness :
  run_io sample_env
    (sample_handle 100 (Update (Some (group_message "hello"))) {[42 := 5]}) 0 0
  = ((Returned, {[42 := 5]}), []).
Proof.
  apply (ineligible_text_does_nothing elapsed_exceeds_Z 60 200
           (Some "secret"%string) "http://localhost:8000" 7
           (fun _ => EmptyString) EmptyString EmptyString sample_env 100
           (group_message "hello") sample_user "hello" {[42 := 5]} 0 0);
    reflexivity.
Defined.

Lemma eligible_message_takes_slot_witness :
  let '(result, t) :=
    run_io broken_env
      (sample_handle 100 (Update (Some (group_message assignment_line)))
         {[42 := 5]}) 0 0 in
  result = (Returned, {[42 := 100]})
  /\ count_posts t = 1%nat
  /\ (forall h data, In (EvPost h data) t -> data_content data = assignment_line).
Proof.
  apply (eligible_message_takes_slot elapsed_exceeds_Z 60 200
           (Some "secret"%string) "http://localhost:8000" 7
           (fun _ => EmptyString) EmptyString EmptyString broken_env 100
           (group_message assignment_line) sample_user assignment_line
           {[42 := 5]} 0 0).
  apply sample_eligible.
Defined.


Lemma failure_keeps_message_witness :
  let t :=
    snd (run_io broken_env
           (sample_handle 100 (Update (Some (group_message assignment_line)))
              ∅) 0 0) in
  count_deletes t = 0%nat /\ count_sends t = 2%nat.
Proof.
  cbv zeta. split.
  - apply (failure_keeps_message elapsed_exceeds_Z 60 200
             (Some "secret"%string) "http://localhost:8000" 7
             (fun _ => EmptyString) EmptyString EmptyString broken_env 100
             (group_message assignment_line) sample_user assignment_line
             ∅ 0 0).
    + apply sample_eligible.
    + vm_compute. reflexivity.
  - vm_compute. reflexivity.
Defined.
